(** * The simulation controller of ai-simulator

    A shallow embedding of the [Simulator] class (the simulator source file)
    and of the collaborators it drives: the process-wide logger, the
    readline prompt, the environment sandbox, the text-completion service and
    the host process.  The controller's methods become functions on a
    [World]: the object's own fields together with the observable effects it
    has produced and the asynchronous work still pending. *)

From Stdlib Require Import ZArith String Ascii List Bool Lia.
From Stdlib Require Import Floats.SpecFloat.
Import ListNotations.
Open Scope string_scope.
Open Scope list_scope.

(* ------------------------------------------------------------------ *)
(** ** JavaScript values used by the controller *)

(** A JavaScript [number] is an IEEE-754 binary64 value. *)
Definition number : Set := spec_float.

Definition prec : Z := 53.
Definition emax : Z := 1024.

(** The number denoted by an integer literal. *)
Definition num_of_Z (z : Z) : number := binary_normalize prec emax z 0 false.

(** The number denoted by the decimal literal [n / d] when both parts are
    exactly representable: the correctly rounded quotient. *)
Definition num_ratio (n d : Z) : number :=
  SFdiv prec emax (num_of_Z n) (num_of_Z d).

(** An error value, as thrown by [JSON.stringify] or by a rejected promise. *)
Inductive JSError : Set :=
| Error (msg : string).

(** Truthiness, the test behind [a || b]. *)
Class Truthy (A : Type) : Type := truthy : A -> bool.

#[global] Instance Truthy_string : Truthy string :=
  fun s => match s with EmptyString => false | String _ _ => true end.

(** [0], [-0] and [NaN] are the falsy numbers. *)
#[global] Instance Truthy_number : Truthy number :=
  fun x => match x with
           | S754_zero _ => false
           | S754_nan => false
           | S754_infinity _ => true
           | S754_finite _ _ _ => true
           end.

#[global] Instance Truthy_bool : Truthy bool := fun b => b.

(** Every array, the empty one included, is truthy. *)
#[global] Instance Truthy_array (A : Type) : Truthy (list A) := fun _ => true.

(** [v || d] where [v] is an optional property: [undefined] is falsy. *)
Definition or_default {A : Type} `{Truthy A} (v : option A) (d : A) : A :=
  match v with
  | Some a => if truthy a then a else d
  | None => d
  end.

Notation "v '|||' d" := (or_default v d) (at level 50, left associativity).

(* ------------------------------------------------------------------ *)
(** ** The host: the types the controller passes through unexamined *)

(** The environment definition handed to the sandbox, the events the sandbox
    produces, and the seed records of [data] are opaque to the controller.
    [JSON_stringify] is the built-in serialisation of an environment; it
    throws on values it cannot serialise. *)
Class Host : Type := {
  Environment : Type;
  EnvironmentEvent : Type;
  Datum : Type;
  JSON_stringify : Environment -> JSError + string
}.

(* ------------------------------------------------------------------ *)
(** ** Configuration *)

Section Options.
Context `{Host}.

(** Modelled from the spec: the [SimulatorOptions] interface, whose
    declaration (models/options/simulator.options) is not part of the
    sources at hand.  [name] and [environment] are required, every other
    property is optional. *)
Record SimulatorOptions : Type := mkOptions {
  name : string;
  description : option string;
  iterations : option number;
  numSentients : option number;
  numNonSentients : option number;
  maxPopulationSize : option number;
  godEventProbability : option number;
  spawnRate : option number;
  verbose : option bool;
  temperature : option number;
  mode : option string;
  data : option (list Datum);
  environment : Environment
}.

Definition default_description : string :=
  "a generic simulation with nothing special".

(** [Simulator.initOptionsWithDefaults]. *)
Definition initOptionsWithDefaults (options : SimulatorOptions)
  : SimulatorOptions :=
  {| name := name options;
     description := Some (description options ||| default_description);
     iterations := Some (iterations options ||| num_of_Z 1000);
     numSentients := Some (numSentients options ||| num_of_Z 10);
     numNonSentients := Some (numNonSentients options ||| num_of_Z 10);
     maxPopulationSize := Some (maxPopulationSize options ||| num_of_Z 100);
     godEventProbability :=
       Some (godEventProbability options ||| num_ratio 1 10);
     spawnRate := Some (spawnRate options ||| num_ratio 1 10);
     verbose := Some (verbose options ||| false);
     temperature := Some (temperature options ||| num_ratio 1 2);
     mode := Some (mode options ||| "normal");
     data := Some (data options ||| []);
     environment := environment options |}.

End Options.

Arguments SimulatorOptions {_}.
Arguments mkOptions {_}.

(* ------------------------------------------------------------------ *)
(** ** Lifecycle records and observable effects *)

(** Modelled from the spec: the [SimulatorEvents] enumeration of the
    common module, which is not part of the sources at hand; these are the
    members the controller uses. *)
Inductive SimulatorEvents : Set :=
| SIMULATOR_START
| SIMULATOR_STOP
| SIMULATOR_PAUSE
| SIMULATOR_RESUME
| SYSTEM_LOG.

Inductive SimulatorEventEmitter : Set :=
| new_SimulatorEventEmitter.

Definition dquote : ascii := Eval cbv in ascii_of_nat 34.
Definition newline : ascii := Eval cbv in ascii_of_nat 10.

Section Controller.
Context `{Host}.

(** The [data] property of a record handed to the logger ([detail] here,
    since [data] already names the configuration property). *)
Inductive RecordData : Type :=
| NoData
| Described (env : Environment) (text : string)
| Failed (error : JSError).

Record LifecycleRecord : Type := mkRecord {
  event : SimulatorEvents;
  message : string;
  detail : RecordData
}.

(** What the controller does to the outside, in the order it does it. *)
Inductive Effect : Type :=
| Logged (r : LifecycleRecord)      (* simulatorLogger.log(r) *)
| Asked (query : string)            (* readline.createInterface; rl.question *)
| Closed                            (* rl.close() *)
| Fetched                           (* getNextEnvironmentEvent() called *)
| Printed (e : EnvironmentEvent)    (* console.log("Generated event:", e) *)
| PrintedError (e : JSError)        (* console.error(..., e) *)
| Completion_requested (prompt : string)  (* AI.llm({ prompt }) called *)
| FlushRequested                    (* simulatorLogger.stopLogWriter() called *)
| FlushCompleted                    (* the promise of stopLogWriter resolved *)
| Exited (code : Z).                (* process.exit(code) *)

(** The sandbox the constructor builds; its behaviour is external. *)
Record EnvironmentSandbox : Type := new_EnvironmentSandbox {
  sandbox_environment : Environment;
  sandbox_emitter : SimulatorEventEmitter
}.

(** The fields of a [Simulator] object. *)
Record Simulator : Type := mkSimulator {
  options : SimulatorOptions;
  isRunning : bool;
  isPaused : bool;
  eventEmitter : option SimulatorEventEmitter;
  environmentSandbox : EnvironmentSandbox
}.

(** The object together with the host around it: the effects so far (oldest
    first), the asynchronous work still pending, and whether the process has
    been terminated. *)
Record World : Type := mkWorld {
  self : Simulator;
  trace : list Effect;
  openQuestions : nat;     (* readline questions waiting for a line *)
  pendingFetches : nat;    (* getNextEnvironmentEvent promises not yet settled *)
  pendingFlushes : nat;    (* stop() calls suspended at their await *)
  exited : option Z
}.

Definition with_self (f : Simulator -> Simulator) (w : World) : World :=
  mkWorld (f (self w)) (trace w) (openQuestions w) (pendingFetches w)
          (pendingFlushes w) (exited w).

Definition set_isRunning (b : bool) (s : Simulator) : Simulator :=
  mkSimulator (options s) b (isPaused s) (eventEmitter s)
              (environmentSandbox s).

Definition set_isPaused (b : bool) (s : Simulator) : Simulator :=
  mkSimulator (options s) (isRunning s) b (eventEmitter s)
              (environmentSandbox s).

Definition set_eventEmitter (e : SimulatorEventEmitter) (s : Simulator)
  : Simulator :=
  mkSimulator (options s) (isRunning s) (isPaused s) (Some e)
              (environmentSandbox s).

Definition emit (e : Effect) (w : World) : World :=
  mkWorld (self w) (trace w ++ [e]) (openQuestions w) (pendingFetches w)
          (pendingFlushes w) (exited w).

Definition set_openQuestions (n : nat) (w : World) : World :=
  mkWorld (self w) (trace w) n (pendingFetches w) (pendingFlushes w)
          (exited w).

Definition set_pendingFetches (n : nat) (w : World) : World :=
  mkWorld (self w) (trace w) (openQuestions w) n (pendingFlushes w)
          (exited w).

Definition set_pendingFlushes (n : nat) (w : World) : World :=
  mkWorld (self w) (trace w) (openQuestions w) (pendingFetches w) n
          (exited w).

Definition set_exited (c : Z) (w : World) : World :=
  mkWorld (self w) (trace w) (openQuestions w) (pendingFetches w)
          (pendingFlushes w) (Some c).

(** The records handed to the logger, in order. *)
Fixpoint records (t : list Effect) : list LifecycleRecord :=
  match t with
  | [] => []
  | Logged r :: t' => r :: records t'
  | _ :: t' => records t'
  end.

(** How often [getNextEnvironmentEvent] was called. *)
Fixpoint fetch_calls (t : list Effect) : nat :=
  match t with
  | [] => 0
  | Fetched :: t' => S (fetch_calls t')
  | _ :: t' => fetch_calls t'
  end.

(* ------------------------------------------------------------------ *)
(** ** Synchronous code: state, and exceptions for [try]/[catch] *)

Inductive Completion (A : Type) : Type :=
| Normal (a : A)
| Thrown (e : JSError).
Arguments Normal {A} a.
Arguments Thrown {A} e.

Definition Action (A : Type) : Type := World -> Completion A * World.

Definition ret {A : Type} (a : A) : Action A := fun w => (Normal a, w).

Definition bind {A B : Type} (m : Action A) (k : A -> Action B) : Action B :=
  fun w => match m w with
           | (Normal a, w') => k a w'
           | (Thrown e, w') => (Thrown e, w')
           end.

Definition throw {A : Type} (e : JSError) : Action A :=
  fun w => (Thrown e, w).

Definition try_catch {A : Type} (body : Action A)
           (handler : JSError -> Action A) : Action A :=
  fun w => match body w with
           | (Normal a, w') => (Normal a, w')
           | (Thrown e, w') => handler e w'
           end.

Definition gets {A : Type} (f : World -> A) : Action A :=
  fun w => (Normal (f w), w).

Definition modify (f : World -> World) : Action unit :=
  fun w => (Normal tt, f w).

(** A call that either returns or throws. *)
Definition settle {A : Type} (r : JSError + A) : Action A :=
  match r with
  | inl e => throw e
  | inr a => ret a
  end.

Definition when (b : bool) (m : Action unit) : Action unit :=
  if b then m else ret tt.

End Controller.

Arguments Normal {A} a.
Arguments Thrown {A} e.

Declare Scope action_scope.
Delimit Scope action_scope with action.
Notation "x <- m ;; k" := (bind m (fun x => k))
  (at level 61, m at next level, right associativity) : action_scope.
Notation "m ;; k" := (bind m (fun _ => k))
  (at level 61, right associativity) : action_scope.

Open Scope action_scope.

(* ------------------------------------------------------------------ *)
(** ** The collaborators *)

Section Methods.
Context `{Host}.

(** Modelled from the spec: [simulatorLogger.log], whose module is not part
    of the sources at hand: a fire-and-forget hand-over of the record to the
    sink, which keeps the records in the order received. *)
Definition simulatorLogger_log (r : LifecycleRecord) : Action unit :=
  modify (emit (Logged r)).

(** Modelled from the spec: [simulatorLogger.stopLogWriter], asynchronous;
    the call starts the flush and the caller is suspended until the flush
    has completed. *)
Definition simulatorLogger_stopLogWriter : Action unit :=
  modify (emit FlushRequested) ;;
  n <- gets pendingFlushes ;;
  modify (set_pendingFlushes (S n)).

(** [readline.createInterface(...)] followed by [rl.question(query, cb)]:
    the query is written and the callback waits for a line. *)
Definition rl_question (query : string) : Action unit :=
  modify (emit (Asked query)) ;;
  n <- gets openQuestions ;;
  modify (set_openQuestions (S n)).

(** [rl.close()], called by a question's callback on its own interface. *)
Definition rl_close : Action unit :=
  modify (emit Closed) ;;
  n <- gets openQuestions ;;
  modify (set_openQuestions (pred n)).

(** [environmentSandbox.getNextEnvironmentEvent()]: the call returns a
    promise; its [then] callback runs when the event is ready. *)
Definition getNextEnvironmentEvent : Action unit :=
  modify (emit Fetched) ;;
  n <- gets pendingFetches ;;
  modify (set_pendingFetches (S n)).

Definition process_exit (code : Z) : Action unit :=
  modify (emit (Exited code)) ;;
  modify (set_exited code).

(** The text-completion collaborator [AI.llm]: from the prompt to the
    completion, or to the error its promise is rejected with. *)
Definition LLM : Type := string -> JSError + string.

Definition AI_llm (llm : LLM) (prompt : string) : Action string :=
  modify (emit (Completion_requested prompt)) ;;
  settle (llm prompt).

(* ------------------------------------------------------------------ *)
(** ** The methods of [Simulator] *)

Definition this_name : Action string :=
  gets (fun w => name (options (self w))).

(** [setupEventListeners]. *)
Definition setupEventListeners (s : Simulator) : Simulator :=
  match eventEmitter s with
  | None => set_eventEmitter new_SimulatorEventEmitter s
  | Some _ => s
  end.

(** [init]. *)
Definition init (s : Simulator) : Simulator := setupEventListeners s.

(** The constructor; [isRunning] and [isPaused] start out [false]. *)
Definition new_Simulator (opts : SimulatorOptions) : Simulator :=
  let resolved := initOptionsWithDefaults opts in
  let emitter := new_SimulatorEventEmitter in
  init (mkSimulator resolved false false (Some emitter)
          (new_EnvironmentSandbox (environment resolved) emitter)).

(** A freshly constructed controller in a host where nothing has happened
    yet. *)
Definition fresh (opts : SimulatorOptions) : World :=
  mkWorld (new_Simulator opts) [] 0 0 0 None.

(** [getRunningState]. *)
Definition getRunningState : Action bool :=
  gets (fun w => isRunning (self w) && negb (isPaused (self w))).

Definition iteration_message (n : string) : string :=
  "Running iteration for SIMULATION '" ++ n ++ "'.".

Definition query : string :=
  "Press 'x' to continue simulation and 'q' to exit:".

(** [runIteration], up to the point where it has asked its question.  The
    body contains no [await], so it runs to that point at once. *)
Definition runIteration : Action unit :=
  paused <- gets (fun w => isPaused (self w)) ;;
  if paused then ret tt
  else
    n <- this_name ;;
    simulatorLogger_log (mkRecord SYSTEM_LOG (iteration_message n) NoData) ;;
    rl_question query.

(** [runSimulation]. *)
Definition runSimulation : Action unit :=
  running <- getRunningState ;;
  when running runIteration.

Definition start_message (n : string) : string :=
  "SIMULATION '" ++ n ++ "' started.".

(** [start]. *)
Definition start : Action unit :=
  modify (with_self (set_isRunning true)) ;;
  n <- this_name ;;
  simulatorLogger_log (mkRecord SIMULATOR_START (start_message n) NoData) ;;
  runSimulation.

Definition stop_message (n : string) : string :=
  "SIMULATION '" ++ n ++ "' stopped.".

(** [stop], up to its [await]. *)
Definition stop : Action unit :=
  modify (with_self (set_isRunning false)) ;;
  n <- this_name ;;
  simulatorLogger_log (mkRecord SIMULATOR_STOP (stop_message n) NoData) ;;
  simulatorLogger_stopLogWriter.

(** [stop], from its [await] on: what runs once the flush has completed. *)
Definition stop_continue : Action unit :=
  process_exit 0.

Definition pause_message (n : string) : string :=
  "SIMULATION '" ++ n ++ "' paused.".

(** [pause]. *)
Definition pause : Action unit :=
  modify (with_self (set_isPaused true)) ;;
  n <- this_name ;;
  simulatorLogger_log (mkRecord SIMULATOR_PAUSE (pause_message n) NoData).

Definition resume_message (n : string) : string :=
  "SIMULATION '" ++ n ++ "' resumed.".

(** [resume]. *)
Definition resume : Action unit :=
  modify (with_self (set_isPaused false)) ;;
  n <- this_name ;;
  simulatorLogger_log (mkRecord SIMULATOR_RESUME (resume_message n) NoData).

(** The callback [runIteration] passes to [rl.question]. *)
Definition on_answer (answer : string) : Action unit :=
  (if (answer =? "q")%string || (answer =? "Q")%string then stop
   else if (answer =? "x")%string || (answer =? "X")%string
        then getNextEnvironmentEvent
        else ret tt) ;;
  rl_close.

(** The [then] callback of [getNextEnvironmentEvent]. *)
Definition on_event (e : EnvironmentEvent) : Action unit :=
  modify (emit (Printed e)) ;;
  runIteration.

Definition describe_prompt (json : string) : string :=
  String dquote "Describe the given environment for a simulation. "
  ++ String newline "                    Environment: " ++ json.

(** [describeEnvironment].  Its single [await] is on the completion; the code
    after it reads no field of the object, so the call is modelled as one
    action that is given the collaborator. *)
Definition describeEnvironment (llm : LLM) : Action string :=
  try_catch
    (env <- gets (fun w => environment (options (self w))) ;;
     json <- settle (JSON_stringify env) ;;
     nlDescription <- AI_llm llm (describe_prompt json) ;;
     simulatorLogger_log
       (mkRecord SYSTEM_LOG "Describing the environment."
                 (Described env nlDescription)) ;;
     ret nlDescription)
    (fun error =>
       modify (emit (PrintedError error)) ;;
       simulatorLogger_log
         (mkRecord SYSTEM_LOG "Error describing the environment."
                   (Failed error)) ;;
       ret "").

(* ------------------------------------------------------------------ *)
(** ** The event loop *)

(** What can happen to a controller: a caller invokes one of its methods, the
    operator enters a line, an environment event becomes ready, or the flush
    of the log writer completes.  Each is handled to completion before the
    next. *)
Inductive Input : Type :=
| Call_start
| Call_runSimulation
| Call_runIteration
| Call_stop
| Call_pause
| Call_resume
| Call_describeEnvironment (llm : LLM)
| Line (answer : string)
| EventReady (e : EnvironmentEvent)
| LogWriterStopped.

Definition exec {A : Type} (m : Action A) (w : World) : World := snd (m w).

(** A line reaches every interface that is open on the input stream when it
    arrives; each runs its callback in turn. *)
Definition deliver (answer : string) (w : World) : World :=
  Nat.iter (openQuestions w) (exec (on_answer answer)) w.

Definition settle_fetch (e : EnvironmentEvent) (w : World) : World :=
  match pendingFetches w with
  | O => w
  | S n => exec (on_event e) (set_pendingFetches n w)
  end.

Definition settle_flush (w : World) : World :=
  match pendingFlushes w with
  | O => w
  | S n => exec stop_continue (emit FlushCompleted (set_pendingFlushes n w))
  end.

(** Nothing runs in a process that has exited. *)
Definition step (i : Input) (w : World) : World :=
  match exited w with
  | Some _ => w
  | None =>
      match i with
      | Call_start => exec start w
      | Call_runSimulation => exec runSimulation w
      | Call_runIteration => exec runIteration w
      | Call_stop => exec stop w
      | Call_pause => exec pause w
      | Call_resume => exec resume w
      | Call_describeEnvironment llm => exec (describeEnvironment llm) w
      | Line answer => deliver answer w
      | EventReady e => settle_fetch e w
      | LogWriterStopped => settle_flush w
      end
  end.

Definition run (script : list Input) (w : World) : World :=
  fold_left (fun w i => step i w) script w.

End Methods.

(* ------------------------------------------------------------------ *)
(** ** A concrete host, for running the controller on examples *)

(** Two environment values: the object [{ type: "grid" }], and an object
    that refers to itself, which [JSON.stringify] refuses. *)
Inductive SampleEnvironment : Set :=
| Grid
| Cyclic.

Definition grid_json : string :=
  "{" ++ String newline ("  " ++ String dquote ("type" ++ String dquote
  (": " ++ String dquote ("grid" ++ String dquote (String newline "}"))))).

Definition sample_stringify (e : SampleEnvironment) : JSError + string :=
  match e with
  | Grid => inr grid_json
  | Cyclic => inl (Error "Converting circular structure to JSON")
  end.

#[global] Instance SampleHost : Host := {|
  Environment := SampleEnvironment;
  EnvironmentEvent := nat;
  Datum := unit;
  JSON_stringify := sample_stringify
|}.

(** The configuration [{ name: "T1", environment: { type: "grid" } }]. *)
Definition T1 : SimulatorOptions :=
  mkOptions "T1" None None None None None None None None None None None
            (Grid : Environment).

Definition llm_ok : LLM := fun _ => inr "a flat grid".
Definition llm_down : LLM := fun _ => inl (Error "service unavailable").

(* ------------------------------------------------------------------ *)
(** ** Observations on a run *)

Section Observations.
Context `{Host}.

(** The record a lifecycle method hands to the logger. *)
Definition lifecycle (ev : SimulatorEvents) (msg : string) : LifecycleRecord :=
  mkRecord ev msg NoData.

Definition event_eqb (a b : SimulatorEvents) : bool :=
  match a, b with
  | SIMULATOR_START, SIMULATOR_START => true
  | SIMULATOR_STOP, SIMULATOR_STOP => true
  | SIMULATOR_PAUSE, SIMULATOR_PAUSE => true
  | SIMULATOR_RESUME, SIMULATOR_RESUME => true
  | SYSTEM_LOG, SYSTEM_LOG => true
  | _, _ => false
  end.

(** How many records of a given kind the logger received. *)
Definition count_records (ev : SimulatorEvents) (t : list Effect) : nat :=
  length (filter (fun r => event_eqb (event r) ev) (records t)).

(** How many iterations got as far as asking the operator. *)
Fixpoint questions_asked (t : list Effect) : nat :=
  match t with
  | [] => 0
  | Asked _ :: t' => S (questions_asked t')
  | _ :: t' => questions_asked t'
  end.

Fixpoint questions_closed (t : list Effect) : nat :=
  match t with
  | [] => 0
  | Closed :: t' => S (questions_closed t')
  | _ :: t' => questions_closed t'
  end.

Fixpoint events_printed (t : list Effect) : nat :=
  match t with
  | [] => 0
  | Printed _ :: t' => S (events_printed t')
  | _ :: t' => events_printed t'
  end.

(** The same configuration with another value for [iterations]. *)
Definition with_iterations (i : option number) (o : SimulatorOptions)
  : SimulatorOptions :=
  mkOptions (name o) (description o) i (numSentients o) (numNonSentients o)
            (maxPopulationSize o) (godEventProbability o) (spawnRate o)
            (verbose o) (temperature o) (mode o) (data o) (environment o).

(** The world with the [iterations] of its configuration blanked out. *)
Definition forget_iterations (w : World) : World :=
  with_self (fun s => mkSimulator (with_iterations None (options s))
                        (isRunning s) (isPaused s) (eventEmitter s)
                        (environmentSandbox s)) w.

(** Everything about a world but its configuration: the run state, the
    effects so far, the pending work and the exit status. *)
Definition observe (w : World)
  : bool * bool * list Effect * (nat * nat * nat) * option Z :=
  (isRunning (self w), isPaused (self w), trace w,
   (openQuestions w, pendingFetches w, pendingFlushes w), exited w).

(** What [rl.close()] and [getNextEnvironmentEvent()] do to the host. *)
Definition close_question (w : World) : World :=
  set_openQuestions (pred (openQuestions w)) (emit Closed w).

Definition request_event (w : World) : World :=
  set_pendingFetches (S (pendingFetches w)) (emit Fetched w).

(** The trace contains a [stop] that got as far as requesting the flush. *)
Definition stop_requested (t : list Effect) : Prop :=
  exists t1 t2 n,
    t = t1 ++ Logged (lifecycle SIMULATOR_STOP (stop_message n))
              :: FlushRequested :: t2.

(** From [w] to [w'] the process has not exited, the trace has only grown,
    and a [stop] is on record if the number of suspended [stop]s changed. *)
Definition advances (w w' : World) : Prop :=
  exited w' = exited w /\
  exists t', trace w' = trace w ++ t' /\
             (pendingFlushes w' = pendingFlushes w
              \/ stop_requested (trace w')).

(** A suspended [stop] has logged its record and requested the flush, and
    an exit has status 0 and comes right after the completion of a flush
    that such a [stop] requested. *)
Definition flush_before_exit (w : World) : Prop :=
  (pendingFlushes w <> 0 -> stop_requested (trace w)) /\
  (forall c, exited w = Some c ->
             c = 0%Z /\
             exists t, trace w = t ++ [FlushCompleted; Exited 0]
                       /\ stop_requested t).

(** Every question asked is closed or still open, and every event fetched
    is printed or still pending. *)
Definition accounted (w : World) : Prop :=
  questions_asked (trace w) = questions_closed (trace w) + openQuestions w /\
  fetch_calls (trace w) = events_printed (trace w) + pendingFetches w.

(** At most one iteration is in flight: one open question or one pending
    event, never both and never two. *)
Definition single_flight (w : World) : Prop :=
  openQuestions w + pendingFetches w <= 1.


(** The controller waits for the operator's answer to a single question. *)
Definition awaiting_answer (w : World) : Prop :=
  exited w = None /\ isPaused (self w) = false /\
  openQuestions w = 1 /\ pendingFetches w = 0.

(** The effects of one round in which the operator continues and the event
    [e] arrives. *)
Definition round_effects (n : string) (e : EnvironmentEvent) : list Effect :=
  [Fetched; Closed; Printed e;
   Logged (lifecycle SYSTEM_LOG (iteration_message n)); Asked query].

(** "[start] is idempotent": on a controller that is already running it
    changes nothing and emits nothing. *)
Definition start_is_idempotent : Prop :=
  forall w : World,
    exited w = None -> isRunning (self w) = true -> step Call_start w = w.

(** "No iteration begins once [isRunning] is false": no input is handled
    with [isRunning] false afterwards and one more question asked. *)
Definition no_iteration_once_stopped : Prop :=
  forall (o : SimulatorOptions) (script : list Input) (i : Input),
    let w := run script (fresh o) in
    isRunning (self (step i w)) = false ->
    questions_asked (trace (step i w)) = questions_asked (trace w).

(** A script on which the controller is driven by its own loop only: no
    caller starts it again or enters the iteration by hand. *)
Definition loop_driven (i : Input) : bool :=
  match i with
  | Call_start | Call_runSimulation | Call_runIteration => false
  | _ => true
  end.

(** The operator's answer asks to terminate, or to continue. *)
Definition is_quit (answer : string) : bool :=
  (answer =? "q")%string || (answer =? "Q")%string.

Definition is_continue (answer : string) : bool :=
  (answer =? "x")%string || (answer =? "X")%string.

(** What handling an input does to the fields of the controller. *)
Definition self_after (i : Input) (w : World) : Simulator :=
  match i with
  | Call_start => set_isRunning true (self w)
  | Call_stop => set_isRunning false (self w)
  | Call_pause => set_isPaused true (self w)
  | Call_resume => set_isPaused false (self w)
  | Line answer =>
      if is_quit answer && negb (Nat.eqb (openQuestions w) 0)
      then set_isRunning false (self w)
      else self w
  | _ => self w
  end.

(** An input that comes from the operator or the host, not from a caller
    of the controller's methods. *)
Definition from_outside (i : Input) : bool :=
  match i with
  | Line _ | EventReady _ | LogWriterStopped => true
  | _ => false
  end.


(** The inputs of a run in which the operator continues once per event and
    then quits, and the flush completes. *)
Definition continue_then_quit (events : list EnvironmentEvent) : list Input :=
  flat_map (fun e => [Line "x"; EventReady e]) events
  ++ [Line "q"; LogWriterStopped].

End Observations.

(* ------------------------------------------------------------------ *)
(** ** Sample worlds and configurations *)

(** The controller of [T1] after [start]. *)
Definition started : World := run [Call_start] (fresh T1).

(** The controller of [T1] after [pause]. *)
Definition paused : World := run [Call_pause] (fresh T1).

(** [start], the operator continues, and a caller stops the controller
    while the event is still being fetched and the flush has not
    completed. *)
Definition stopped_while_fetching : World :=
  run [Call_start; Line "x"; Call_stop] (fresh T1).

(** A configuration that supplies falsy values: zero for the numbers, the
    empty string for the texts. *)
Definition all_falsy : SimulatorOptions :=
  mkOptions "T2" (Some EmptyString) (Some (num_of_Z 0)) (Some (num_of_Z 0))
            (Some (num_of_Z 0)) (Some (num_of_Z 0)) (Some (num_of_Z 0))
            (Some (num_of_Z 0)) (Some false) (Some (num_of_Z 0))
            (Some EmptyString) (Some []) (Cyclic : Environment).

(** A configuration that supplies a value for every field. *)
Definition all_set : SimulatorOptions :=
  mkOptions "T3" (Some "a small world") (Some (num_of_Z 5))
            (Some (num_of_Z 2)) (Some (num_of_Z 3)) (Some (num_of_Z 50))
            (Some (num_ratio 1 4)) (Some (num_ratio 1 8)) (Some true)
            (Some (num_of_Z 1)) (Some "fast") (Some [tt])
            (Grid : Environment).

(* ------------------------------------------------------------------ *)
(** ** The string helpers of common/utils *)

(** A [string] stands for a JavaScript string, one character per code unit;
    the patterns below only name characters of the ASCII range. *)

Definition carriage_return : ascii := Eval cbv in ascii_of_nat 13.

(** The text that opens a fenced JSON block, and the text that closes it. *)
Definition fence_open : string := "```json" ++ String newline "".
Definition fence_close : string := String newline "```".

(** [Some rest] when [s] is [p] followed by [rest]. *)
Fixpoint drop_prefix (p s : string) : option string :=
  match p, s with
  | EmptyString, _ => Some s
  | String a p', String b s' =>
      if Ascii.eqb a b then drop_prefix p' s' else None
  | String _ _, EmptyString => None
  end.

(** [Some front] when [s] is [front] followed by [q]: the scan tries every
    position in turn, and the pattern is anchored at the end of [s]. *)
Fixpoint drop_suffix (q s : string) : option string :=
  if (s =? q)%string then Some EmptyString
  else match s with
       | EmptyString => None
       | String a s' =>
           match drop_suffix q s' with
           | Some front => Some (String a front)
           | None => None
           end
       end.

(** [s.replace(/^```json\n|\n```$/g, "")]: the first alternative can match
    at the start of [s] only and the second at its end only; matches do not
    overlap, so the second is looked for in what the first left. *)
Definition strip_fences (s : string) : string :=
  let rest := match drop_prefix fence_open s with
              | Some r => r
              | None => s
              end in
  match drop_suffix fence_close rest with
  | Some front => front
  | None => rest
  end.

(** [s.replace(/\r?\n|\r/g, "")]: at each position, a carriage return with
    the line feed after it, a line feed alone, or a carriage return alone is
    dropped. *)
Fixpoint remove_line_breaks (s : string) : string :=
  match s with
  | EmptyString => EmptyString
  | String c s' =>
      if Ascii.eqb c carriage_return then
        match s' with
        | String c' s'' =>
            if Ascii.eqb c' newline then remove_line_breaks s''
            else remove_line_breaks s'
        | EmptyString => remove_line_breaks s'
        end
      else if Ascii.eqb c newline then remove_line_breaks s'
      else String c (remove_line_breaks s')
  end.

(** [cleanGPTJson]. *)
Definition cleanGPTJson (json : string) : string :=
  match json with
  | EmptyString => EmptyString
  | String _ _ => remove_line_breaks (strip_fences json)
  end.

Definition is_line_break (c : ascii) : bool :=
  Ascii.eqb c carriage_return || Ascii.eqb c newline.

Fixpoint has_line_break (s : string) : bool :=
  match s with
  | EmptyString => false
  | String c s' => is_line_break c || has_line_break s'
  end.

(** The string without its carriage returns and line feeds. *)
Fixpoint without_line_breaks (s : string) : string :=
  match s with
  | EmptyString => EmptyString
  | String c s' =>
      if is_line_break c then without_line_breaks s'
      else String c (without_line_breaks s')
  end.

(* ------------------------------------------------------------------ *)
(** * Properties of the configuration merge *)

Section OptionsFacts.
Context `{Host}.

Lemma or_default_unset {A : Type} `{Truthy A} (d : A) :
  None ||| d = d.
Proof. reflexivity. Qed.

Lemma or_default_falsy {A : Type} `{Truthy A} (v d : A) :
  truthy v = false -> Some v ||| d = d.
Proof. intros Hv. unfold or_default. now rewrite Hv. Qed.

Lemma or_default_truthy {A : Type} `{Truthy A} (v d : A) :
  truthy v = true -> Some v ||| d = v.
Proof. intros Hv. unfold or_default. now rewrite Hv. Qed.

(** A merged number is truthy as soon as its default is. *)
Lemma or_default_number_truthy (v : option number) (d : number) :
  truthy d = true -> truthy (v ||| d) = true.
Proof.
  intros Hd. destruct v as [x|]; [|exact Hd].
  unfold or_default. destruct (truthy x) eqn:Hx; [exact Hx | exact Hd].
Qed.

Lemma truthy_not_zero (x : number) (s : bool) :
  truthy x = true -> x <> S754_zero s.
Proof. intros Hx ->. discriminate Hx. Qed.

(** The documented defaults, as binary64 values. *)
Example default_iterations_value :
  num_of_Z 1000 = S754_finite false 8796093022208000 (-43).
Proof. reflexivity. Qed.

Example default_rate_value :
  num_ratio 1 10 = S754_finite false 7205759403792794 (-56).
Proof. reflexivity. Qed.

Example default_temperature_value :
  num_ratio 1 2 = S754_finite false 4503599627370496 (-53).
Proof. reflexivity. Qed.

(** C8.  For every configuration, [initOptionsWithDefaults] keeps the
    required fields [name] and [environment] as they are and resolves every
    optional field that is unset to its documented default: the placeholder
    description, iterations 1000, numSentients 10, numNonSentients 10,
    maxPopulationSize 100, godEventProbability 0.1, spawnRate 0.1,
    temperature 0.5, mode "normal", verbose false and empty data. *)
Theorem initOptionsWithDefaults_unset (o : SimulatorOptions) :
  name (initOptionsWithDefaults o) = name o /\
  environment (initOptionsWithDefaults o) = environment o /\
  (description o = None ->
   description (initOptionsWithDefaults o)
   = Some "a generic simulation with nothing special") /\
  (iterations o = None ->
   iterations (initOptionsWithDefaults o) = Some (num_of_Z 1000)) /\
  (numSentients o = None ->
   numSentients (initOptionsWithDefaults o) = Some (num_of_Z 10)) /\
  (numNonSentients o = None ->
   numNonSentients (initOptionsWithDefaults o) = Some (num_of_Z 10)) /\
  (maxPopulationSize o = None ->
   maxPopulationSize (initOptionsWithDefaults o) = Some (num_of_Z 100)) /\
  (godEventProbability o = None ->
   godEventProbability (initOptionsWithDefaults o) = Some (num_ratio 1 10)) /\
  (spawnRate o = None ->
   spawnRate (initOptionsWithDefaults o) = Some (num_ratio 1 10)) /\
  (temperature o = None ->
   temperature (initOptionsWithDefaults o) = Some (num_ratio 1 2)) /\
  (mode o = None -> mode (initOptionsWithDefaults o) = Some "normal") /\
  (verbose o = None -> verbose (initOptionsWithDefaults o) = Some false) /\
  (data o = None -> data (initOptionsWithDefaults o) = Some []).
Proof.
  unfold initOptionsWithDefaults; cbn [name environment description iterations
    numSentients numNonSentients maxPopulationSize godEventProbability
    spawnRate temperature mode verbose data].
  repeat split; intros ->; reflexivity.
Qed.

(** C10.  The merge tests truthiness, not presence: a supplied value that is
    falsy (the numbers 0, -0 and NaN, the empty string, [false]) is replaced
    by the field's default, exactly as an unset one; hence the resolved
    [temperature] and [iterations] are never zero. *)
Theorem initOptionsWithDefaults_falsy (o : SimulatorOptions) :
  (truthy (num_of_Z 0) = false /\ truthy EmptyString = false) /\
  (forall v, description o = Some v -> truthy v = false ->
   description (initOptionsWithDefaults o)
   = Some "a generic simulation with nothing special") /\
  (forall v, iterations o = Some v -> truthy v = false ->
   iterations (initOptionsWithDefaults o) = Some (num_of_Z 1000)) /\
  (forall v, numSentients o = Some v -> truthy v = false ->
   numSentients (initOptionsWithDefaults o) = Some (num_of_Z 10)) /\
  (forall v, numNonSentients o = Some v -> truthy v = false ->
   numNonSentients (initOptionsWithDefaults o) = Some (num_of_Z 10)) /\
  (forall v, maxPopulationSize o = Some v -> truthy v = false ->
   maxPopulationSize (initOptionsWithDefaults o) = Some (num_of_Z 100)) /\
  (forall v, godEventProbability o = Some v -> truthy v = false ->
   godEventProbability (initOptionsWithDefaults o) = Some (num_ratio 1 10)) /\
  (forall v, spawnRate o = Some v -> truthy v = false ->
   spawnRate (initOptionsWithDefaults o) = Some (num_ratio 1 10)) /\
  (forall v, temperature o = Some v -> truthy v = false ->
   temperature (initOptionsWithDefaults o) = Some (num_ratio 1 2)) /\
  (forall v, mode o = Some v -> truthy v = false ->
   mode (initOptionsWithDefaults o) = Some "normal") /\
  (forall v, verbose o = Some v -> truthy v = false ->
   verbose (initOptionsWithDefaults o) = Some false) /\
  (forall s, temperature (initOptionsWithDefaults o) <> Some (S754_zero s)) /\
  (forall s, iterations (initOptionsWithDefaults o) <> Some (S754_zero s)).
Proof.
  unfold initOptionsWithDefaults; cbn [name environment description iterations
    numSentients numNonSentients maxPopulationSize godEventProbability
    spawnRate temperature mode verbose data].
  split; [split; reflexivity|].
  repeat match goal with
         | |- (forall v, _ = Some v -> _) /\ _ =>
             split; [intros v -> Hv; now rewrite (or_default_falsy _ _ Hv)|]
         end.
  split; intros s E; injection E as E;
    revert E; apply truthy_not_zero, or_default_number_truthy; reflexivity.
Qed.

End OptionsFacts.

(* ------------------------------------------------------------------ *)
(** * The methods, one by one *)

Section MethodFacts.
Context `{Host}.

Lemma exec_runIteration (w : World) :
  exec runIteration w
  = if isPaused (self w) then w
    else set_openQuestions (S (openQuestions w))
           (emit (Asked query)
              (emit (Logged (lifecycle SYSTEM_LOG
                               (iteration_message (name (options (self w))))))
                    w)).
Proof.
  unfold exec, runIteration, bind, gets.
  destruct (isPaused (self w)); reflexivity.
Qed.

Lemma exec_runSimulation (w : World) :
  exec runSimulation w
  = if isRunning (self w) && negb (isPaused (self w))
    then exec runIteration w else w.
Proof.
  unfold exec at 1, runSimulation, bind, getRunningState, gets, when.
  destruct (isRunning (self w) && negb (isPaused (self w))); reflexivity.
Qed.

Lemma exec_start (w : World) :
  exec start w
  = exec runSimulation
      (emit (Logged (lifecycle SIMULATOR_START
                       (start_message (name (options (self w))))))
            (with_self (set_isRunning true) w)).
Proof.
  reflexivity.
Qed.

Lemma exec_stop (w : World) :
  exec stop w
  = set_pendingFlushes (S (pendingFlushes w))
      (emit FlushRequested
         (emit (Logged (lifecycle SIMULATOR_STOP
                          (stop_message (name (options (self w))))))
               (with_self (set_isRunning false) w))).
Proof. reflexivity. Qed.

Lemma exec_pause (w : World) :
  exec pause w
  = emit (Logged (lifecycle SIMULATOR_PAUSE
                    (pause_message (name (options (self w))))))
         (with_self (set_isPaused true) w).
Proof. reflexivity. Qed.

Lemma exec_resume (w : World) :
  exec resume w
  = emit (Logged (lifecycle SIMULATOR_RESUME
                    (resume_message (name (options (self w))))))
         (with_self (set_isPaused false) w).
Proof. reflexivity. Qed.

Lemma exec_on_answer (answer : string) (w : World) :
  exec (on_answer answer) w
  = close_question
      (if (answer =? "q")%string || (answer =? "Q")%string then exec stop w
       else if (answer =? "x")%string || (answer =? "X")%string
            then request_event w
            else w).
Proof.
  unfold exec at 1, on_answer, bind.
  destruct ((answer =? "q")%string || (answer =? "Q")%string);
    [reflexivity|].
  destruct ((answer =? "x")%string || (answer =? "X")%string); reflexivity.
Qed.

Lemma exec_on_event (e : EnvironmentEvent) (w : World) :
  exec (on_event e) w = exec runIteration (emit (Printed e) w).
Proof.
  reflexivity.
Qed.

End MethodFacts.

(** Brings the trace of a world built by the host operations to the form
    [trace w ++ ...]. *)
Ltac simpl_trace :=
  unfold close_question, request_event;
  try rewrite exec_stop;
  cbn [fst snd trace self openQuestions pendingFetches pendingFlushes exited
       emit with_self set_openQuestions set_pendingFetches
       set_pendingFlushes set_exited].

(* ------------------------------------------------------------------ *)
(** * Traces *)

Section TraceFacts.
Context `{Host}.

Lemma records_app (t1 t2 : list Effect) :
  records (t1 ++ t2) = records t1 ++ records t2.
Proof.
  induction t1 as [|e t1 IH]; [reflexivity|].
  destruct e; cbn; rewrite IH; reflexivity.
Qed.

Lemma fetch_calls_app (t1 t2 : list Effect) :
  fetch_calls (t1 ++ t2) = fetch_calls t1 + fetch_calls t2.
Proof.
  induction t1 as [|e t1 IH]; [reflexivity|].
  destruct e; cbn; rewrite IH; reflexivity.
Qed.

Lemma questions_asked_app (t1 t2 : list Effect) :
  questions_asked (t1 ++ t2) = questions_asked t1 + questions_asked t2.
Proof.
  induction t1 as [|e t1 IH]; [reflexivity|].
  destruct e; cbn; rewrite IH; reflexivity.
Qed.

Lemma questions_closed_app (t1 t2 : list Effect) :
  questions_closed (t1 ++ t2) = questions_closed t1 + questions_closed t2.
Proof.
  induction t1 as [|e t1 IH]; [reflexivity|].
  destruct e; cbn; rewrite IH; reflexivity.
Qed.

Lemma events_printed_app (t1 t2 : list Effect) :
  events_printed (t1 ++ t2) = events_printed t1 + events_printed t2.
Proof.
  induction t1 as [|e t1 IH]; [reflexivity|].
  destruct e; cbn; rewrite IH; reflexivity.
Qed.

Lemma count_records_app (ev : SimulatorEvents) (t1 t2 : list Effect) :
  count_records ev (t1 ++ t2) = count_records ev t1 + count_records ev t2.
Proof.
  unfold count_records. now rewrite records_app, filter_app, length_app.
Qed.

End TraceFacts.

(* ------------------------------------------------------------------ *)
(** * Single calls *)

Section CallFacts.
Context `{Host}.

(** C6.  An iteration invoked while [isPaused] is true does nothing: it
    logs no record, asks no question, fetches no event, changes no field and
    leaves nothing pending that would start a further iteration. *)
Theorem runIteration_paused (w : World) :
  isPaused (self w) = true ->
  runIteration w = (Normal tt, w) /\ step Call_runIteration w = w.
Proof.
  intros Hp. split.
  - unfold runIteration, bind, gets. rewrite Hp. reflexivity.
  - unfold step. destruct (exited w); [reflexivity|].
    rewrite exec_runIteration, Hp. reflexivity.
Qed.

(** C1, as the code has it.  [start] on a controller that is already
    running leaves the fields of the controller as they are, but hands one
    more SIMULATOR_START record to the logger and enters [runSimulation]
    again: unless the controller is paused, that logs one more iteration
    record and asks the operator one more question. *)
Theorem start_while_running (w : World) :
  isRunning (self w) = true ->
  self (exec start w) = self w /\
  trace (exec start w)
  = trace w
    ++ Logged (lifecycle SIMULATOR_START
                 (start_message (name (options (self w)))))
    :: (if isPaused (self w) then []
        else [Logged (lifecycle SYSTEM_LOG
                        (iteration_message (name (options (self w)))));
              Asked query]) /\
  openQuestions (exec start w)
  = (if isPaused (self w) then openQuestions w else S (openQuestions w)) /\
  pendingFetches (exec start w) = pendingFetches w /\
  pendingFlushes (exec start w) = pendingFlushes w /\
  exited (exec start w) = exited w.
Proof.
  intros Hr. rewrite exec_start, exec_runSimulation, exec_runIteration.
  destruct w as [[o r p em sb] t q f fl ex]. cbn in Hr. subst r.
  destruct p; cbn; rewrite <- ?app_assoc; repeat split; reflexivity.
Qed.

Lemma describeEnvironment_eq (llm : LLM) (w : World) :
  describeEnvironment llm w
  = let env := environment (options (self w)) in
    let failed (e : JSError) (w' : World) :=
      (Normal "",
       emit (Logged (mkRecord SYSTEM_LOG "Error describing the environment."
                       (Failed e)))
            (emit (PrintedError e) w')) in
    match JSON_stringify env with
    | inl e => failed e w
    | inr json =>
        let w1 := emit (Completion_requested (describe_prompt json)) w in
        match llm (describe_prompt json) with
        | inl e => failed e w1
        | inr text =>
            (Normal text,
             emit (Logged (mkRecord SYSTEM_LOG "Describing the environment."
                             (Described env text))) w1)
        end
    end.
Proof.
  unfold describeEnvironment, try_catch, bind, gets, AI_llm, modify,
    simulatorLogger_log, settle, ret, throw.
  cbv zeta.
  destruct (JSON_stringify (environment (options (self w)))); [reflexivity|].
  destruct (llm (describe_prompt s)); reflexivity.
Qed.

(** C4.  [describeEnvironment] never throws and changes no field of the
    controller.  When the completion succeeds it returns the completion
    unchanged and logs one SYSTEM_LOG record holding the environment and the
    description; when the completion fails, or the environment cannot be
    serialised, it logs one SYSTEM_LOG record holding the error and returns
    the empty string. *)
Theorem describeEnvironment_never_throws (llm : LLM) (w : World) :
  (exists text, fst (describeEnvironment llm w) = Normal text) /\
  self (snd (describeEnvironment llm w)) = self w /\
  (forall json text,
     JSON_stringify (environment (options (self w))) = inr json ->
     llm (describe_prompt json) = inr text ->
     fst (describeEnvironment llm w) = Normal text /\
     records (trace (snd (describeEnvironment llm w)))
     = records (trace w)
       ++ [mkRecord SYSTEM_LOG "Describing the environment."
             (Described (environment (options (self w))) text)]) /\
  (forall json error,
     JSON_stringify (environment (options (self w))) = inr json ->
     llm (describe_prompt json) = inl error ->
     fst (describeEnvironment llm w) = Normal "" /\
     records (trace (snd (describeEnvironment llm w)))
     = records (trace w)
       ++ [mkRecord SYSTEM_LOG "Error describing the environment."
             (Failed error)]) /\
  (forall error,
     JSON_stringify (environment (options (self w))) = inl error ->
     fst (describeEnvironment llm w) = Normal "" /\
     records (trace (snd (describeEnvironment llm w)))
     = records (trace w)
       ++ [mkRecord SYSTEM_LOG "Error describing the environment."
             (Failed error)]).
Proof.
  rewrite describeEnvironment_eq. cbv zeta.
  destruct (JSON_stringify (environment (options (self w))))
    as [e|json] eqn:Hjson.
  - cbn [fst snd self trace emit].
    split; [eexists; reflexivity|]. split; [reflexivity|].
    split; [intros ? ? [=]|]. split; [intros ? ? [=]|].
    intros e' [= <-]. split; [reflexivity|].
    rewrite <- app_assoc, records_app. reflexivity.
  - destruct (llm (describe_prompt json)) as [e|text] eqn:Hllm;
      cbn [fst snd self trace emit];
      (split; [eexists; reflexivity|]); (split; [reflexivity|]).
    + split; [intros j x [= <-]; rewrite Hllm; intros [=]|].
      split; [|intros ? [=]].
      intros j x [= <-]. rewrite Hllm. intros [= <-].
      split; [reflexivity|].
      rewrite <- !app_assoc, records_app. reflexivity.
    + split; [|split; [intros j x [= <-]; rewrite Hllm; intros [=]
                      |intros ? [=]]].
      intros j x [= <-]. rewrite Hllm. intros [= <-].
      split; [reflexivity|].
      rewrite <- !app_assoc, records_app. reflexivity.
Qed.

End CallFacts.

(* ------------------------------------------------------------------ *)
(** * What a step does to the controller's fields *)

Section StepFacts.
Context `{Host}.

Lemma step_exited (i : Input) (w : World) (c : Z) :
  exited w = Some c -> step i w = w.
Proof. intros Hx. unfold step. now rewrite Hx. Qed.

Lemma run_exited (script : list Input) (w : World) (c : Z) :
  exited w = Some c -> run script w = w.
Proof.
  revert w. induction script as [|i script IH]; intros w Hx; [reflexivity|].
  cbn. rewrite (step_exited i w c Hx). now apply IH.
Qed.

Lemma run_app (s1 s2 : list Input) (w : World) :
  run (s1 ++ s2) w = run s2 (run s1 w).
Proof. apply fold_left_app. Qed.

Lemma iter_invariant {A : Type} (P : A -> Prop) (f : A -> A) :
  (forall a, P a -> P (f a)) -> forall n a, P a -> P (Nat.iter n f a).
Proof.
  intros Hf n a Ha. induction n as [|n IH]; [exact Ha|].
  cbn. now apply Hf.
Qed.

Lemma exec_on_answer_quit (answer : string) (w : World) :
  is_quit answer = true ->
  exec (on_answer answer) w = close_question (exec stop w).
Proof.
  intros Hq. rewrite exec_on_answer. unfold is_quit in Hq. now rewrite Hq.
Qed.

Lemma exec_on_answer_continue (answer : string) (w : World) :
  is_quit answer = false -> is_continue answer = true ->
  exec (on_answer answer) w = close_question (request_event w).
Proof.
  intros Hq Hc. rewrite exec_on_answer. unfold is_quit, is_continue in *.
  now rewrite Hq, Hc.
Qed.

Lemma exec_on_answer_other (answer : string) (w : World) :
  is_quit answer = false -> is_continue answer = false ->
  exec (on_answer answer) w = close_question w.
Proof.
  intros Hq Hc. rewrite exec_on_answer. unfold is_quit, is_continue in *.
  now rewrite Hq, Hc.
Qed.

Lemma self_runIteration (w : World) : self (exec runIteration w) = self w.
Proof. rewrite exec_runIteration. now destruct (isPaused (self w)). Qed.

Lemma self_runSimulation (w : World) : self (exec runSimulation w) = self w.
Proof.
  rewrite exec_runSimulation.
  destruct (isRunning (self w) && negb (isPaused (self w)));
    [apply self_runIteration | reflexivity].
Qed.

Lemma self_describeEnvironment (llm : LLM) (w : World) :
  self (exec (describeEnvironment llm) w) = self w.
Proof.
  unfold exec. rewrite describeEnvironment_eq. cbv zeta.
  destruct (JSON_stringify _); [reflexivity|].
  destruct (llm _); reflexivity.
Qed.

Lemma self_on_answer (answer : string) (w : World) :
  self (exec (on_answer answer) w)
  = if is_quit answer then set_isRunning false (self w) else self w.
Proof.
  rewrite exec_on_answer. fold (is_quit answer).
  destruct (is_quit answer); [reflexivity|].
  now destruct (_ || _).
Qed.

Lemma set_isRunning_twice (b : bool) (s : Simulator) :
  set_isRunning b (set_isRunning b s) = set_isRunning b s.
Proof. reflexivity. Qed.

Lemma openQuestions_on_answer (answer : string) (w : World) :
  openQuestions (exec (on_answer answer) w) = pred (openQuestions w).
Proof.
  rewrite exec_on_answer.
  destruct (_ || _); [reflexivity|]. now destruct (_ || _).
Qed.

Lemma self_iter_on_answer (answer : string) (n : nat) (w : World) :
  self (Nat.iter n (exec (on_answer answer)) w)
  = if is_quit answer && negb (Nat.eqb n 0)
    then set_isRunning false (self w) else self w.
Proof.
  induction n as [|n IH]; [now rewrite andb_false_r|].
  rewrite Nat.iter_succ, self_on_answer, IH.
  destruct (is_quit answer); [|reflexivity].
  now destruct n.
Qed.

(** The fields of the controller after any input. *)
Lemma self_step (i : Input) (w : World) :
  exited w = None -> self (step i w) = self_after i w.
Proof.
  intros Hx. unfold step. rewrite Hx.
  destruct i; cbn [self_after].
  - rewrite exec_start. apply self_runSimulation.
  - apply self_runSimulation.
  - apply self_runIteration.
  - reflexivity.
  - reflexivity.
  - reflexivity.
  - apply self_describeEnvironment.
  - apply self_iter_on_answer.
  - unfold settle_fetch. destruct (pendingFetches w); [reflexivity|].
    rewrite exec_on_event. now rewrite self_runIteration.
  - unfold settle_flush. now destruct (pendingFlushes w).
Qed.

End StepFacts.

(* ------------------------------------------------------------------ *)
(** * The run state *)

Section RunState.
Context `{Host}.

Lemma is_quit_spec (answer : string) :
  is_quit answer = true <-> answer = "q" \/ answer = "Q".
Proof.
  unfold is_quit. rewrite orb_true_iff, !String.eqb_eq. reflexivity.
Qed.

Lemma is_continue_spec (answer : string) :
  is_continue answer = true <-> answer = "x" \/ answer = "X".
Proof.
  unfold is_continue. rewrite orb_true_iff, !String.eqb_eq. reflexivity.
Qed.

Lemma continue_not_quit (answer : string) :
  is_continue answer = true -> is_quit answer = false.
Proof.
  rewrite is_continue_spec. intros [-> | ->]; reflexivity.
Qed.

(** C5, as the code has it.  Once the process has exited nothing changes.
    Before that, an input after which [isRunning] has gone from false to
    true is a call of [start], and one after which it has gone from true to
    false is a call of [stop], by a caller or by the callback of a question
    answered "q" or "Q"; [pause], [resume], [runSimulation], [runIteration]
    and [describeEnvironment] leave [isRunning] as it is; and
    [runSimulation] does nothing at all while [isRunning] is false. *)
Theorem isRunning_set_by_start_and_stop_only (i : Input) (w : World) :
  (forall c, exited w = Some c -> step i w = w) /\
  (isRunning (self w) = false -> isRunning (self (step i w)) = true ->
   i = Call_start) /\
  (isRunning (self w) = true -> isRunning (self (step i w)) = false ->
   i = Call_stop \/
   exists answer, i = Line answer /\ (answer = "q" \/ answer = "Q")
                  /\ exec (on_answer answer) w = close_question (exec stop w))
  /\
  (isRunning (self (exec pause w)) = isRunning (self w) /\
   isRunning (self (exec resume w)) = isRunning (self w) /\
   isRunning (self (exec runSimulation w)) = isRunning (self w) /\
   isRunning (self (exec runIteration w)) = isRunning (self w) /\
   forall llm,
     isRunning (self (exec (describeEnvironment llm) w))
     = isRunning (self w)) /\
  (isRunning (self w) = false -> exec runSimulation w = w).
Proof.
  split; [intros c; apply step_exited|].
  assert (Hstep : forall c, exited w = Some c -> step i w = w)
    by (intros c; apply step_exited).
  split; [|split; [|split]].
  - intros Hf Ht. destruct (exited w) as [c|] eqn:Hx.
    + rewrite (Hstep c eq_refl) in Ht. congruence.
    + rewrite (self_step i w Hx) in Ht.
      destruct i; cbn in Ht; try congruence.
      destruct (_ && _); cbn in Ht; congruence.
  - intros Ht Hf. destruct (exited w) as [c|] eqn:Hx.
    + rewrite (Hstep c eq_refl) in Hf. congruence.
    + rewrite (self_step i w Hx) in Hf.
      destruct i; cbn in Hf; try congruence; [now left|].
      right. exists answer.
      destruct (is_quit answer) eqn:Hq; [|cbn in Hf; congruence].
      split; [reflexivity|]. split; [now apply is_quit_spec|].
      now apply exec_on_answer_quit.
  - rewrite self_runSimulation, self_runIteration.
    repeat split; try reflexivity.
    intros llm. now rewrite self_describeEnvironment.
  - intros Hf. rewrite exec_runSimulation, Hf. reflexivity.
Qed.

(** C7.  The callback of an iteration's question takes exactly "q" and "Q"
    as terminate: it invokes [stop], fetches nothing and asks no further
    question; and exactly "x" and "X" as continue: it requests one
    environment event without touching the controller's fields, and the
    arrival of that event enters the next iteration.  Any other answer only
    closes the question.  When the first answer of a run is "q", the records
    are START, the iteration's SYSTEM_LOG and STOP, and no event is ever
    fetched. *)
Theorem operator_answer_interpretation (answer : string) (w : World) :
  (is_quit answer = true <-> answer = "q" \/ answer = "Q") /\
  (is_continue answer = true <-> answer = "x" \/ answer = "X") /\
  (answer = "q" \/ answer = "Q" ->
   exec (on_answer answer) w = close_question (exec stop w) /\
   trace (exec (on_answer answer) w)
   = trace w ++ [Logged (lifecycle SIMULATOR_STOP
                           (stop_message (name (options (self w)))));
                 FlushRequested; Closed] /\
   pendingFetches (exec (on_answer answer) w) = pendingFetches w) /\
  (answer = "x" \/ answer = "X" ->
   trace (exec (on_answer answer) w) = trace w ++ [Fetched; Closed] /\
   self (exec (on_answer answer) w) = self w /\
   pendingFetches (exec (on_answer answer) w) = S (pendingFetches w) /\
   pendingFlushes (exec (on_answer answer) w) = pendingFlushes w /\
   forall e,
     exited w = None ->
     step (EventReady e) (exec (on_answer answer) w)
     = exec runIteration
         (emit (Printed e) (close_question (emit Fetched w)))) /\
  (is_quit answer = false -> is_continue answer = false ->
   exec (on_answer answer) w = close_question w) /\
  (count_records SIMULATOR_STOP (trace (exec (on_answer answer) w))
   = count_records SIMULATOR_STOP (trace w)
     + (if is_quit answer then 1 else 0)) /\
  (fetch_calls (trace (exec (on_answer answer) w))
   = fetch_calls (trace w) + (if is_continue answer then 1 else 0)) /\
  (questions_asked (trace (exec (on_answer answer) w))
   = questions_asked (trace w)) /\
  (forall o : SimulatorOptions,
     records (trace (run [Call_start; Line "q"; LogWriterStopped] (fresh o)))
     = [lifecycle SIMULATOR_START (start_message (name o));
        lifecycle SYSTEM_LOG (iteration_message (name o));
        lifecycle SIMULATOR_STOP (stop_message (name o))] /\
     fetch_calls
       (trace (run [Call_start; Line "q"; LogWriterStopped] (fresh o))) = 0 /\
     exited (run [Call_start; Line "q"; LogWriterStopped] (fresh o))
     = Some 0%Z).
Proof.
  split; [apply is_quit_spec|]. split; [apply is_continue_spec|].
  split; [|split; [|split; [|split; [|split; [|split]]]]].
  - intros Hq. apply is_quit_spec in Hq.
    rewrite (exec_on_answer_quit answer w Hq), exec_stop. cbn.
    rewrite <- !app_assoc. repeat split; reflexivity.
  - intros Hc. apply is_continue_spec in Hc.
    rewrite (exec_on_answer_continue answer w (continue_not_quit _ Hc) Hc).
    cbn. rewrite <- !app_assoc. repeat split; try reflexivity.
    intros e Hx. unfold step. cbn. rewrite Hx. reflexivity.
  - apply exec_on_answer_other.
  - rewrite exec_on_answer. fold (is_quit answer) (is_continue answer).
    destruct (is_quit answer); [|destruct (is_continue answer)];
      simpl_trace; rewrite ?count_records_app; cbn; lia.
  - rewrite exec_on_answer. fold (is_quit answer) (is_continue answer).
    destruct (is_quit answer) eqn:Hq.
    + assert (is_continue answer = false) as ->.
      { apply is_quit_spec in Hq. destruct Hq as [-> | ->]; reflexivity. }
      simpl_trace. rewrite ?fetch_calls_app. cbn. lia.
    + destruct (is_continue answer); simpl_trace;
        rewrite ?fetch_calls_app; cbn; lia.
  - rewrite exec_on_answer.
    destruct (_ || _); [|destruct (_ || _)]; simpl_trace;
      rewrite ?questions_asked_app; cbn; lia.
  - intros o. repeat split; reflexivity.
Qed.

(** With no question open and no event or flush pending, what the operator
    or the host does has no effect. *)
Lemma step_outside_quiescent (i : Input) (w : World) :
  openQuestions w = 0 -> pendingFetches w = 0 -> pendingFlushes w = 0 ->
  from_outside i = true -> step i w = w.
Proof.
  intros Hq Hf Hl Hi. unfold step. destruct (exited w); [reflexivity|].
  destruct i; cbn in Hi; try discriminate Hi.
  - unfold deliver. now rewrite Hq.
  - unfold settle_fetch. now rewrite Hf.
  - unfold settle_flush. now rewrite Hl.
Qed.

(** C2, on the run in which the pause takes effect before the resume: the
    controller is started and paused, the operator continues, the event
    arrives (and the iteration it enters stops at the pause check), and then
    [resume] is called.  Afterwards the controller is running and not
    paused, its last record is the RESUME one, no question is open and no
    event or flush is pending: no line, event or flush completion has any
    effect any more, so the run never iterates again. *)
Theorem resume_leaves_the_run_stalled (o : SimulatorOptions)
        (e : EnvironmentEvent) :
  let w := run [Call_start; Call_pause; Line "x"; EventReady e; Call_resume]
               (fresh o) in
  isRunning (self w) = true /\ isPaused (self w) = false /\
  exited w = None /\
  openQuestions w = 0 /\ pendingFetches w = 0 /\ pendingFlushes w = 0 /\
  records (trace w)
  = [lifecycle SIMULATOR_START (start_message (name o));
     lifecycle SYSTEM_LOG (iteration_message (name o));
     lifecycle SIMULATOR_PAUSE (pause_message (name o));
     lifecycle SIMULATOR_RESUME (resume_message (name o))] /\
  (forall i, from_outside i = true -> step i w = w).
Proof.
  cbv zeta. repeat (split; [reflexivity|]).
  intros i Hi. apply step_outside_quiescent; [reflexivity ..|exact Hi].
Qed.

End RunState.

(* ------------------------------------------------------------------ *)
(** * The [iterations] field plays no part in a run *)

Section Iterations.
Context `{Host}.

Ltac open_world w :=
  destruct w as [[[] r p em sb] t q f fl ex].

Lemma forget_runIteration (w : World) :
  forget_iterations (exec runIteration w)
  = exec runIteration (forget_iterations w).
Proof.
  rewrite !exec_runIteration. open_world w. destruct p; reflexivity.
Qed.

Lemma forget_runSimulation (w : World) :
  forget_iterations (exec runSimulation w)
  = exec runSimulation (forget_iterations w).
Proof.
  rewrite !exec_runSimulation, <- forget_runIteration.
  open_world w. destruct r, p; reflexivity.
Qed.

Lemma forget_start (w : World) :
  forget_iterations (exec start w) = exec start (forget_iterations w).
Proof. rewrite !exec_start, forget_runSimulation. reflexivity. Qed.

Lemma forget_describeEnvironment (llm : LLM) (w : World) :
  forget_iterations (exec (describeEnvironment llm) w)
  = exec (describeEnvironment llm) (forget_iterations w).
Proof.
  unfold exec. rewrite !describeEnvironment_eq. cbv zeta.
  open_world w. cbn.
  destruct (JSON_stringify _); [reflexivity|].
  destruct (llm _); reflexivity.
Qed.

Lemma forget_on_answer (answer : string) (w : World) :
  forget_iterations (exec (on_answer answer) w)
  = exec (on_answer answer) (forget_iterations w).
Proof.
  rewrite !exec_on_answer.
  destruct (_ || _); [reflexivity|]. destruct (_ || _); reflexivity.
Qed.

Lemma forget_iter_on_answer (answer : string) (n : nat) (w : World) :
  forget_iterations (Nat.iter n (exec (on_answer answer)) w)
  = Nat.iter n (exec (on_answer answer)) (forget_iterations w).
Proof.
  induction n as [|n IH]; [reflexivity|].
  now rewrite !Nat.iter_succ, forget_on_answer, IH.
Qed.

Lemma forget_step (i : Input) (w : World) :
  forget_iterations (step i w) = step i (forget_iterations w).
Proof.
  unfold step. change (exited (forget_iterations w)) with (exited w).
  destruct (exited w); [reflexivity|]. destruct i.
  - apply forget_start.
  - apply forget_runSimulation.
  - apply forget_runIteration.
  - reflexivity.
  - reflexivity.
  - reflexivity.
  - apply forget_describeEnvironment.
  - apply forget_iter_on_answer.
  - unfold settle_fetch.
    change (pendingFetches (forget_iterations w)) with (pendingFetches w).
    destruct (pendingFetches w); [reflexivity|].
    rewrite !exec_on_event, forget_runIteration. reflexivity.
  - unfold settle_flush.
    change (pendingFlushes (forget_iterations w)) with (pendingFlushes w).
    destruct (pendingFlushes w); reflexivity.
Qed.

Lemma forget_run (script : list Input) (w : World) :
  forget_iterations (run script w) = run script (forget_iterations w).
Proof.
  revert w. induction script as [|i script IH]; intros w; [reflexivity|].
  change (run (i :: script) w) with (run script (step i w)).
  rewrite IH, forget_step. reflexivity.
Qed.

Lemma forget_fresh (i : option number) (o : SimulatorOptions) :
  forget_iterations (fresh (with_iterations i o))
  = forget_iterations (fresh o).
Proof. reflexivity. Qed.

Lemma observe_forget (w : World) :
  observe (forget_iterations w) = observe w.
Proof. reflexivity. Qed.

(** C9.  Two runs whose configurations differ in [iterations] only, fed
    the same calls, operator answers, events and flush completions, go
    through the same run states, produce the same effects in the same order
    (hence the same records and the same number of event fetches), and
    have the same work pending and the same exit status. *)
Theorem iterations_never_consulted (o : SimulatorOptions)
        (i1 i2 : option number) (script : list Input) :
  observe (run script (fresh (with_iterations i1 o)))
  = observe (run script (fresh (with_iterations i2 o))).
Proof.
  rewrite <- (observe_forget (run script (fresh (with_iterations i1 o)))).
  rewrite <- (observe_forget (run script (fresh (with_iterations i2 o)))).
  now rewrite !forget_run, !forget_fresh.
Qed.

End Iterations.

(* ------------------------------------------------------------------ *)
(** * Invariants of a run *)

Section RunInvariants.
Context `{Host}.

Lemma stop_requested_app (t t' : list Effect) :
  stop_requested t -> stop_requested (t ++ t').
Proof.
  intros (t1 & t2 & n & ->). exists t1, (t2 ++ t'), n.
  rewrite <- app_assoc. reflexivity.
Qed.

Lemma advances_refl (w : World) : advances w w.
Proof.
  split; [reflexivity|]. exists []. rewrite app_nil_r. now split; [|left].
Qed.

Lemma advances_trans (w1 w2 w3 : World) :
  advances w1 w2 -> advances w2 w3 -> advances w1 w3.
Proof.
  intros (Hx1 & t1 & Ht1 & Hf1) (Hx2 & t2 & Ht2 & Hf2).
  split; [congruence|]. exists (t1 ++ t2). split.
  - rewrite Ht2, Ht1, app_assoc. reflexivity.
  - destruct Hf2 as [Hf2|Hf2]; [|now right].
    destruct Hf1 as [Hf1|Hf1]; [left; congruence|].
    right. rewrite Ht2. now apply stop_requested_app.
Qed.

Ltac quiet_advance :=
  split; [reflexivity|];
  eexists; split;
  [simpl_trace; rewrite <- ?app_assoc; reflexivity | left; reflexivity].

Lemma advances_runIteration (w : World) : advances w (exec runIteration w).
Proof.
  rewrite exec_runIteration.
  destruct (isPaused (self w)); [apply advances_refl | quiet_advance].
Qed.

Lemma advances_runSimulation (w : World) : advances w (exec runSimulation w).
Proof.
  rewrite exec_runSimulation.
  destruct (_ && _); [apply advances_runIteration | apply advances_refl].
Qed.

Lemma advances_start (w : World) : advances w (exec start w).
Proof.
  rewrite exec_start.
  eapply advances_trans; [|apply advances_runSimulation]. quiet_advance.
Qed.

Lemma advances_stop (w : World) : advances w (exec stop w).
Proof.
  rewrite exec_stop. split; [reflexivity|].
  eexists. split; [simpl_trace; rewrite <- app_assoc; reflexivity|].
  right. simpl_trace.
  exists (trace w), [], (name (options (self w))).
  rewrite <- app_assoc. reflexivity.
Qed.

Lemma advances_describeEnvironment (llm : LLM) (w : World) :
  advances w (exec (describeEnvironment llm) w).
Proof.
  unfold exec. rewrite describeEnvironment_eq. cbv zeta.
  destruct (JSON_stringify _); [quiet_advance|].
  destruct (llm _); quiet_advance.
Qed.

Lemma advances_on_answer (answer : string) (w : World) :
  advances w (exec (on_answer answer) w).
Proof.
  rewrite exec_on_answer. destruct (_ || _).
  - eapply advances_trans; [apply advances_stop | quiet_advance].
  - destruct (_ || _); quiet_advance.
Qed.

Lemma advances_deliver (answer : string) (w : World) :
  advances w (deliver answer w).
Proof.
  unfold deliver. generalize (openQuestions w) as n.
  induction n as [|n IH]; [apply advances_refl|].
  rewrite Nat.iter_succ.
  eapply advances_trans; [exact IH | apply advances_on_answer].
Qed.

Lemma advances_settle_fetch (e : EnvironmentEvent) (w : World) :
  advances w (settle_fetch e w).
Proof.
  unfold settle_fetch. destruct (pendingFetches w); [apply advances_refl|].
  rewrite exec_on_event.
  eapply advances_trans; [|apply advances_runIteration]. quiet_advance.
Qed.

(** Handling any input but the completion of the flush leaves the process
    alive and only adds to the trace. *)
Lemma advances_step (i : Input) (w : World) :
  exited w = None -> i <> LogWriterStopped -> advances w (step i w).
Proof.
  intros Hx Hi. unfold step. rewrite Hx. destruct i.
  - apply advances_start.
  - apply advances_runSimulation.
  - apply advances_runIteration.
  - apply advances_stop.
  - quiet_advance.
  - quiet_advance.
  - apply advances_describeEnvironment.
  - apply advances_deliver.
  - apply advances_settle_fetch.
  - contradiction.
Qed.

Lemma step_flush_completed (w : World) (n : nat) :
  exited w = None -> pendingFlushes w = S n ->
  trace (step LogWriterStopped w) = trace w ++ [FlushCompleted; Exited 0] /\
  exited (step LogWriterStopped w) = Some 0%Z.
Proof.
  intros Hx Hn. unfold step, settle_flush. rewrite Hx, Hn.
  split; [|reflexivity]. cbn. rewrite <- app_assoc. reflexivity.
Qed.

Lemma step_flush_none (w : World) :
  pendingFlushes w = 0 -> step LogWriterStopped w = w.
Proof.
  intros Hn. unfold step, settle_flush. rewrite Hn. now destruct (exited w).
Qed.

Lemma input_eq_dec_flush (i : Input) :
  i = LogWriterStopped \/ i <> LogWriterStopped.
Proof. destruct i; (now left) || (right; discriminate). Qed.

Lemma flush_before_exit_step (i : Input) (w : World) :
  flush_before_exit w -> flush_before_exit (step i w).
Proof.
  intros Hw. destruct (exited w) as [c|] eqn:Hx.
  { now rewrite (step_exited i w c Hx). }
  destruct (input_eq_dec_flush i) as [-> | Hi].
  - destruct (pendingFlushes w) as [|n] eqn:Hn.
    { now rewrite (step_flush_none w Hn). }
    destruct Hw as [Hp He].
    destruct (step_flush_completed w n Hx Hn) as [Ht Hx'].
    assert (Hs : stop_requested (trace w)) by (apply Hp; congruence).
    split.
    + intros _. rewrite Ht. now apply stop_requested_app.
    + intros c. rewrite Hx'. intros [= <-]. split; [reflexivity|].
      exists (trace w). now split.
  - destruct Hw as [Hp He].
    destruct (advances_step i w Hx Hi) as (Hx' & t' & Ht & Hf). split.
    + intros Hn. destruct Hf as [Hf|Hf]; [|exact Hf].
      rewrite Ht. apply stop_requested_app, Hp. congruence.
    + intros c. rewrite Hx', Hx. discriminate.
Qed.

Lemma flush_before_exit_run (script : list Input) (w : World) :
  flush_before_exit w -> flush_before_exit (run script w).
Proof.
  revert w. induction script as [|i script IH]; intros w Hw; [exact Hw|].
  change (run (i :: script) w) with (run script (step i w)).
  now apply IH, flush_before_exit_step.
Qed.

Lemma flush_before_exit_fresh (o : SimulatorOptions) :
  flush_before_exit (fresh o).
Proof. split; [intros Hn; now contradiction Hn | discriminate]. Qed.

(** C3.  [stop] sets [isRunning] to false, hands the SIMULATOR_STOP record
    to the logger and requests the flush, in this order, and does not
    terminate the process yet; the process is terminated when the flush has
    completed, with status 0.  In every run of a freshly constructed
    controller an exit has status 0 and comes right after the completion of
    a flush that a [stop] had requested after logging its record. *)
Theorem stop_flushes_then_exits (w : World) :
  exited w = None ->
  (isRunning (self (step Call_stop w)) = false /\
   trace (step Call_stop w)
   = trace w ++ [Logged (lifecycle SIMULATOR_STOP
                           (stop_message (name (options (self w)))));
                 FlushRequested] /\
   exited (step Call_stop w) = None) /\
  (trace (step LogWriterStopped (step Call_stop w))
   = trace w ++ [Logged (lifecycle SIMULATOR_STOP
                           (stop_message (name (options (self w)))));
                 FlushRequested; FlushCompleted; Exited 0] /\
   exited (step LogWriterStopped (step Call_stop w)) = Some 0%Z) /\
  (forall (o : SimulatorOptions) (script : list Input) (c : Z),
     exited (run script (fresh o)) = Some c ->
     c = 0%Z /\
     exists t, trace (run script (fresh o)) = t ++ [FlushCompleted; Exited 0]
               /\ stop_requested t).
Proof.
  intros Hx. split; [|split].
  - destruct w as [[o r p em sb] t q f fl ex].
    cbn in Hx. subst ex. unfold step, exec. cbn.
    rewrite <- !app_assoc. repeat split; reflexivity.
  - destruct w as [[o r p em sb] t q f fl ex].
    cbn in Hx. subst ex. unfold step, settle_flush, exec. cbn.
    rewrite <- !app_assoc. repeat split; reflexivity.
  - intros o script c.
    apply (flush_before_exit_run script (fresh o)), flush_before_exit_fresh.
Qed.

End RunInvariants.

(* ------------------------------------------------------------------ *)
(** * The string helpers *)

Section UtilsFacts.

Lemma remove_line_feed (s : string) :
  remove_line_breaks (String newline s) = remove_line_breaks s.
Proof. reflexivity. Qed.

Lemma remove_carriage_return (s : string) :
  remove_line_breaks (String carriage_return s) = remove_line_breaks s.
Proof.
  destruct s as [|c s]; [reflexivity|].
  change (remove_line_breaks (String carriage_return (String c s)))
    with (if Ascii.eqb c newline then remove_line_breaks s
          else remove_line_breaks (String c s)).
  destruct (Ascii.eqb c newline) eqn:Hc; [|reflexivity].
  apply Ascii.eqb_eq in Hc. subst c. now rewrite remove_line_feed.
Qed.

Lemma remove_line_breaks_cons (c : ascii) (s : string) :
  remove_line_breaks (String c s)
  = if is_line_break c then remove_line_breaks s
    else String c (remove_line_breaks s).
Proof.
  unfold is_line_break.
  destruct (Ascii.eqb c carriage_return) eqn:Hr.
  - apply Ascii.eqb_eq in Hr. subst c. apply remove_carriage_return.
  - destruct (Ascii.eqb c newline) eqn:Hn.
    + apply Ascii.eqb_eq in Hn. subst c. reflexivity.
    + cbn [remove_line_breaks orb]. now rewrite Hr, Hn.
Qed.

(** The two patterns of the second replacement together drop exactly the
    carriage returns and the line feeds. *)
Lemma remove_line_breaks_filter (s : string) :
  remove_line_breaks s = without_line_breaks s.
Proof.
  induction s as [|c s IH]; [reflexivity|].
  rewrite remove_line_breaks_cons. cbn [without_line_breaks].
  now rewrite IH.
Qed.

Lemma without_line_breaks_clean (s : string) :
  has_line_break (without_line_breaks s) = false.
Proof.
  induction s as [|c s IH]; [reflexivity|].
  cbn [without_line_breaks].
  destruct (is_line_break c) eqn:Hc; [exact IH|].
  cbn [has_line_break]. now rewrite Hc, IH.
Qed.

Lemma without_line_breaks_id (s : string) :
  has_line_break s = false -> without_line_breaks s = s.
Proof.
  induction s as [|c s IH]; [reflexivity|].
  cbn [has_line_break without_line_breaks]. intros Hs.
  apply orb_false_iff in Hs as [Hc Hs]. now rewrite Hc, IH.
Qed.

Lemma without_line_breaks_length (s : string) :
  String.length (without_line_breaks s) <= String.length s.
Proof.
  induction s as [|c s IH]; [apply le_n|].
  cbn [without_line_breaks]. destruct (is_line_break c); cbn; lia.
Qed.

Lemma has_line_break_app (s1 s2 : string) :
  has_line_break (s1 ++ s2)%string = has_line_break s1 || has_line_break s2.
Proof.
  induction s1 as [|c s1 IH]; [reflexivity|].
  cbn. now rewrite IH, orb_assoc.
Qed.

Lemma drop_prefix_sound (p s r : string) :
  drop_prefix p s = Some r -> s = (p ++ r)%string.
Proof.
  revert s. induction p as [|a p IH]; intros s; cbn.
  - now intros [= ->].
  - destruct s as [|b s]; [discriminate|].
    destruct (Ascii.eqb a b) eqn:Hab; [|discriminate].
    apply Ascii.eqb_eq in Hab. subst b. intros Hr. now rewrite (IH s Hr).
Qed.

Lemma drop_prefix_app (p r : string) : drop_prefix p (p ++ r)%string = Some r.
Proof.
  induction p as [|a p IH]; [reflexivity|].
  cbn. now rewrite Ascii.eqb_refl.
Qed.

Lemma drop_suffix_sound (q s front : string) :
  drop_suffix q s = Some front -> s = (front ++ q)%string.
Proof.
  revert front. induction s as [|a s IH]; intros front; cbn [drop_suffix].
  - destruct (EmptyString =? q)%string eqn:Hq; [|discriminate].
    apply String.eqb_eq in Hq. subst q. now intros [= <-].
  - destruct (String a s =? q)%string eqn:Hq.
    + apply String.eqb_eq in Hq. subst q. now intros [= <-].
    + destruct (drop_suffix q s) as [f|] eqn:Hf; [|discriminate].
      intros [= <-]. cbn. now rewrite (IH f eq_refl).
Qed.

Lemma length_app_string (s1 s2 : string) :
  String.length (s1 ++ s2)%string = String.length s1 + String.length s2.
Proof.
  induction s1 as [|c s1 IH]; [reflexivity|]. cbn. now rewrite IH.
Qed.

Lemma drop_suffix_app (q front : string) :
  drop_suffix q (front ++ q)%string = Some front.
Proof.
  induction front as [|a front IH].
  - cbn [append]. destruct q; cbn [drop_suffix]; now rewrite String.eqb_refl.
  - cbn [append drop_suffix].
    destruct (String a (front ++ q) =? q)%string eqn:Hq.
    + apply String.eqb_eq in Hq.
      apply (f_equal String.length) in Hq. cbn in Hq.
      rewrite length_app_string in Hq. lia.
    + now rewrite IH.
Qed.

Lemma strip_fences_length (s : string) :
  String.length (strip_fences s) <= String.length s.
Proof.
  unfold strip_fences.
  destruct (drop_prefix fence_open s) as [r|] eqn:Hp.
  - apply drop_prefix_sound in Hp. subst s.
    destruct (drop_suffix fence_close r) as [f|] eqn:Hs.
    + apply drop_suffix_sound in Hs. subst r.
      rewrite !length_app_string. lia.
    + rewrite length_app_string. lia.
  - destruct (drop_suffix fence_close s) as [f|] eqn:Hs; [|apply le_n].
    apply drop_suffix_sound in Hs. subst s. rewrite length_app_string. lia.
Qed.

Lemma strip_fences_no_line_break (s : string) :
  has_line_break s = false -> strip_fences s = s.
Proof.
  intros Hs. unfold strip_fences.
  destruct (drop_prefix fence_open s) as [r|] eqn:Hp.
  { apply drop_prefix_sound in Hp. subst s.
    rewrite has_line_break_app in Hs. discriminate Hs. }
  destruct (drop_suffix fence_close s) as [f|] eqn:Hf; [|reflexivity].
  apply drop_suffix_sound in Hf. subst s.
  rewrite has_line_break_app, orb_comm in Hs. discriminate Hs.
Qed.

Lemma strip_fences_fenced (body : string) :
  strip_fences (fence_open ++ body ++ fence_close)%string = body.
Proof.
  unfold strip_fences. now rewrite drop_prefix_app, drop_suffix_app.
Qed.

Lemma cleanGPTJson_filter (s : string) :
  cleanGPTJson s = without_line_breaks (strip_fences s).
Proof.
  destruct s as [|c s]; [reflexivity|].
  cbn [cleanGPTJson]. apply remove_line_breaks_filter.
Qed.

Lemma cleanGPTJson_fixed (s : string) :
  has_line_break s = false -> cleanGPTJson s = s.
Proof.
  intros Hs. rewrite cleanGPTJson_filter, (strip_fences_no_line_break s Hs).
  now apply without_line_breaks_id.
Qed.

(** X1.  The result of [cleanGPTJson] holds no carriage return and no line
    feed. *)
Theorem cleanGPTJson_single_line (json : string) :
  has_line_break (cleanGPTJson json) = false.
Proof. rewrite cleanGPTJson_filter. apply without_line_breaks_clean. Qed.

(** X2.  Cleaning twice is cleaning once. *)
Theorem cleanGPTJson_idempotent (json : string) :
  cleanGPTJson (cleanGPTJson json) = cleanGPTJson json.
Proof.
  apply cleanGPTJson_fixed. rewrite cleanGPTJson_filter.
  apply without_line_breaks_clean.
Qed.

(** X3.  A payload wrapped in the opening and the closing fence comes back
    without the fences and without its line breaks. *)
Theorem cleanGPTJson_unwraps_fence (body : string) :
  cleanGPTJson (fence_open ++ body ++ fence_close)%string
  = without_line_breaks body.
Proof. now rewrite cleanGPTJson_filter, strip_fences_fenced. Qed.

(** X4.  A text without line breaks is returned as it is, even one that
    starts with the fence marker or ends with it: the two patterns of the
    first replacement include the line break. *)
Theorem cleanGPTJson_keeps_single_line (json : string) :
  has_line_break json = false -> cleanGPTJson json = json.
Proof. apply cleanGPTJson_fixed. Qed.

(** X5.  [cleanGPTJson] only removes characters: the result is never longer than
    the input, and the empty text stays empty. *)
Theorem cleanGPTJson_shrinks (json : string) :
  String.length (cleanGPTJson json) <= String.length json /\
  cleanGPTJson EmptyString = EmptyString.
Proof.
  split; [|reflexivity]. rewrite cleanGPTJson_filter.
  etransitivity; [apply without_line_breaks_length|].
  apply strip_fences_length.
Qed.

End UtilsFacts.

(* ------------------------------------------------------------------ *)
(** * More on the configuration merge *)

Section OptionsMore.
Context `{Host}.

Lemma or_default_idem {A : Type} `{Truthy A} (v : option A) (d : A) :
  Some (v ||| d) ||| d = v ||| d.
Proof.
  unfold or_default. destruct v as [a|].
  - destruct (truthy a) eqn:Ha; [now rewrite Ha | now destruct (truthy d)].
  - now destruct (truthy d).
Qed.

(** X6.  Resolving a resolved configuration changes nothing. *)
Theorem initOptionsWithDefaults_idempotent (o : SimulatorOptions) :
  initOptionsWithDefaults (initOptionsWithDefaults o)
  = initOptionsWithDefaults o.
Proof.
  unfold initOptionsWithDefaults; cbn [name environment description iterations
    numSentients numNonSentients maxPopulationSize godEventProbability
    spawnRate temperature mode verbose data].
  now rewrite !or_default_idem.
Qed.

(** X7.  A supplied value that is truthy is kept as supplied, whatever the
    field; a supplied [data] array is always kept. *)
Theorem initOptionsWithDefaults_keeps_truthy (o : SimulatorOptions) :
  (forall v, description o = Some v -> truthy v = true ->
   description (initOptionsWithDefaults o) = Some v) /\
  (forall v, iterations o = Some v -> truthy v = true ->
   iterations (initOptionsWithDefaults o) = Some v) /\
  (forall v, numSentients o = Some v -> truthy v = true ->
   numSentients (initOptionsWithDefaults o) = Some v) /\
  (forall v, numNonSentients o = Some v -> truthy v = true ->
   numNonSentients (initOptionsWithDefaults o) = Some v) /\
  (forall v, maxPopulationSize o = Some v -> truthy v = true ->
   maxPopulationSize (initOptionsWithDefaults o) = Some v) /\
  (forall v, godEventProbability o = Some v -> truthy v = true ->
   godEventProbability (initOptionsWithDefaults o) = Some v) /\
  (forall v, spawnRate o = Some v -> truthy v = true ->
   spawnRate (initOptionsWithDefaults o) = Some v) /\
  (forall v, temperature o = Some v -> truthy v = true ->
   temperature (initOptionsWithDefaults o) = Some v) /\
  (forall v, mode o = Some v -> truthy v = true ->
   mode (initOptionsWithDefaults o) = Some v) /\
  (forall v, verbose o = Some v ->
   verbose (initOptionsWithDefaults o) = Some v) /\
  (forall v, data o = Some v -> data (initOptionsWithDefaults o) = Some v).
Proof.
  unfold initOptionsWithDefaults; cbn [name environment description iterations
    numSentients numNonSentients maxPopulationSize godEventProbability
    spawnRate temperature mode verbose data].
  repeat match goal with
         | |- (forall v, _ = Some v -> truthy v = true -> _) /\ _ =>
             split; [intros v -> Hv; now rewrite (or_default_truthy _ _ Hv)|]
         end.
  split; [intros [|] ->; reflexivity | intros v ->; reflexivity].
Qed.

End OptionsMore.

(* ------------------------------------------------------------------ *)
(** * More on runs *)

Section RunsMore.
Context `{Host}.

Lemma run_cons (i : Input) (script : list Input) (w : World) :
  run (i :: script) w = run script (step i w).
Proof. reflexivity. Qed.

Lemma self_after_frame (i : Input) (w : World) :
  options (self_after i w) = options (self w) /\
  eventEmitter (self_after i w) = eventEmitter (self w) /\
  environmentSandbox (self_after i w) = environmentSandbox (self w).
Proof.
  destruct i; cbn [self_after]; try (now repeat split).
  destruct (_ && _); now repeat split.
Qed.

Lemma step_frame (i : Input) (w : World) :
  options (self (step i w)) = options (self w) /\
  eventEmitter (self (step i w)) = eventEmitter (self w) /\
  environmentSandbox (self (step i w)) = environmentSandbox (self w).
Proof.
  destruct (exited w) as [c|] eqn:Hx.
  - now rewrite (step_exited i w c Hx).
  - rewrite (self_step i w Hx). apply self_after_frame.
Qed.

(** X8.  Whatever happens to a controller, its configuration, its emitter and
    its sandbox stay the ones it was constructed with: only the two flags
    ever change. *)
Theorem configuration_fixed_for_life (script : list Input) (w : World) :
  options (self (run script w)) = options (self w) /\
  eventEmitter (self (run script w)) = eventEmitter (self w) /\
  environmentSandbox (self (run script w)) = environmentSandbox (self w).
Proof.
  revert w. induction script as [|i script IH]; intros w; [now repeat split|].
  rewrite run_cons. destruct (IH (step i w)) as (Ho & Hm & Hs).
  destruct (step_frame i w) as (Ho' & Hm' & Hs').
  repeat split; congruence.
Qed.

Lemma step_trace_grows (i : Input) (w : World) :
  exists t, trace (step i w) = trace w ++ t.
Proof.
  destruct (exited w) as [c|] eqn:Hx.
  { exists []. now rewrite (step_exited i w c Hx), app_nil_r. }
  destruct (input_eq_dec_flush i) as [-> | Hi].
  - destruct (pendingFlushes w) as [|n] eqn:Hn.
    + exists []. now rewrite (step_flush_none w Hn), app_nil_r.
    + eexists. apply (step_flush_completed w n Hx Hn).
  - destruct (advances_step i w Hx Hi) as (_ & t & Ht & _). now exists t.
Qed.

(** The trace is append-only: no input removes or rewrites a record or any
    other effect already produced. *)
Lemma trace_only_grows (script : list Input) (w : World) :
  exists t, trace (run script w) = trace w ++ t.
Proof.
  revert w. induction script as [|i script IH]; intros w.
  - exists []. now rewrite app_nil_r.
  - rewrite run_cons. destruct (IH (step i w)) as [t2 Ht2].
    destruct (step_trace_grows i w) as [t1 Ht1].
    exists (t1 ++ t2). now rewrite Ht2, Ht1, app_assoc.
Qed.

Ltac count_trace :=
  simpl_trace; rewrite <- ?app_assoc;
  rewrite ?questions_asked_app, ?questions_closed_app, ?fetch_calls_app,
    ?events_printed_app;
  cbn [questions_asked questions_closed fetch_calls events_printed];
  lia.

Lemma accounted_runIteration (w : World) :
  accounted w -> accounted (exec runIteration w).
Proof.
  intros [Hq Hf]. rewrite exec_runIteration.
  destruct (isPaused (self w)); [now split|]. split; count_trace.
Qed.

Lemma accounted_runSimulation (w : World) :
  accounted w -> accounted (exec runSimulation w).
Proof.
  intros Hw. rewrite exec_runSimulation.
  destruct (_ && _); [now apply accounted_runIteration | exact Hw].
Qed.

Lemma accounted_emit_logged (r : LifecycleRecord) (w : World) :
  accounted w -> accounted (emit (Logged r) w).
Proof. intros [Hq Hf]. split; count_trace. Qed.

Lemma accounted_with_self (f : Simulator -> Simulator) (w : World) :
  accounted w -> accounted (with_self f w).
Proof. intros Hw. exact Hw. Qed.

Lemma accounted_stop (w : World) : accounted w -> accounted (exec stop w).
Proof. intros [Hq Hf]. split; count_trace. Qed.

Lemma accounted_describeEnvironment (llm : LLM) (w : World) :
  accounted w -> accounted (exec (describeEnvironment llm) w).
Proof.
  intros [Hq Hf]. unfold exec. rewrite describeEnvironment_eq. cbv zeta.
  destruct (JSON_stringify _); [split; count_trace|].
  destruct (llm _); split; count_trace.
Qed.

Lemma accounted_on_answer (answer : string) (w : World) :
  openQuestions w <> 0 -> accounted w -> accounted (exec (on_answer answer) w).
Proof.
  intros Hn [Hq Hf]. rewrite exec_on_answer.
  destruct (_ || _); [split; count_trace|].
  destruct (_ || _); split; count_trace.
Qed.

Lemma accounted_iter_on_answer (answer : string) (n : nat) (w : World) :
  n <= openQuestions w -> accounted w ->
  accounted (Nat.iter n (exec (on_answer answer)) w) /\
  openQuestions (Nat.iter n (exec (on_answer answer)) w)
  = openQuestions w - n.
Proof.
  intros Hn Hw. induction n as [|n IH].
  - split; [exact Hw | cbn; lia].
  - destruct IH as [IHa IHo]; [lia|]. rewrite Nat.iter_succ. split.
    + apply accounted_on_answer; [lia | exact IHa].
    + rewrite openQuestions_on_answer, IHo. lia.
Qed.

Lemma accounted_step (i : Input) (w : World) :
  accounted w -> accounted (step i w).
Proof.
  intros Hw. unfold step. destruct (exited w); [exact Hw|]. destruct i.
  - rewrite exec_start.
    now apply accounted_runSimulation, accounted_emit_logged.
  - now apply accounted_runSimulation.
  - now apply accounted_runIteration.
  - now apply accounted_stop.
  - now apply accounted_emit_logged.
  - now apply accounted_emit_logged.
  - now apply accounted_describeEnvironment.
  - now apply accounted_iter_on_answer.
  - unfold settle_fetch. destruct (pendingFetches w) as [|n] eqn:Hn;
      [exact Hw|].
    rewrite exec_on_event. apply accounted_runIteration.
    destruct Hw as [Hq Hf]. split; count_trace.
  - unfold settle_flush. destruct (pendingFlushes w); [exact Hw|].
    destruct Hw as [Hq Hf]. unfold exec, stop_continue, process_exit, bind,
      modify. cbn [snd]. split; count_trace.
Qed.

(** X9.  In every run of a freshly constructed controller, whatever the calls
    and their order, each question asked has been closed or is still open,
    and each event fetched has been printed or is still pending. *)
Theorem questions_and_fetches_accounted (o : SimulatorOptions)
        (script : list Input) :
  questions_asked (trace (run script (fresh o)))
  = questions_closed (trace (run script (fresh o)))
    + openQuestions (run script (fresh o)) /\
  fetch_calls (trace (run script (fresh o)))
  = events_printed (trace (run script (fresh o)))
    + pendingFetches (run script (fresh o)).
Proof.
  change (accounted (run script (fresh o))).
  assert (Hgen : forall w, accounted w -> accounted (run script w)).
  { induction script as [|i script IH]; intros w Hw; [exact Hw|].
    rewrite run_cons. now apply IH, accounted_step. }
  apply Hgen. split; reflexivity.
Qed.

End RunsMore.

(* ------------------------------------------------------------------ *)
(** * The loop as the operator drives it *)

Section Loop.
Context `{Host}.

Lemma pending_describeEnvironment (llm : LLM) (w : World) :
  openQuestions (exec (describeEnvironment llm) w) = openQuestions w /\
  pendingFetches (exec (describeEnvironment llm) w) = pendingFetches w.
Proof.
  unfold exec. rewrite describeEnvironment_eq. cbv zeta.
  destruct (JSON_stringify _); [now split|]. destruct (llm _); now split.
Qed.

Lemma single_flight_step (i : Input) (w : World) :
  loop_driven i = true -> single_flight w -> single_flight (step i w).
Proof.
  unfold single_flight. intros Hi Hw. unfold step.
  destruct (exited w); [exact Hw|].
  destruct i; try discriminate Hi.
  - exact Hw.
  - exact Hw.
  - exact Hw.
  - now destruct (pending_describeEnvironment llm w) as [-> ->].
  - unfold deliver. destruct (openQuestions w) as [|[|n]] eqn:Hq.
    + cbn. lia.
    + cbn [Nat.iter nat_rect]. rewrite exec_on_answer.
      destruct (_ || _); [simpl_trace; lia|].
      destruct (_ || _); simpl_trace; lia.
    + lia.
  - unfold settle_fetch. destruct (pendingFetches w) as [|n] eqn:Hf;
      [lia|].
    rewrite exec_on_event, exec_runIteration.
    destruct (isPaused _); simpl_trace; lia.
  - unfold settle_flush. destruct (pendingFlushes w); [lia|]. cbn. lia.
Qed.

(** X10.  Once started, and as long as no caller starts the controller again or
    enters the iteration by hand, at most one iteration is in flight: there
    is never more than one question open or event pending, and never both,
    whatever the operator answers and whenever [pause], [resume], [stop] or
    [describeEnvironment] are called. *)
Theorem one_iteration_in_flight (o : SimulatorOptions)
        (script : list Input) :
  forallb loop_driven script = true ->
  openQuestions (run (Call_start :: script) (fresh o))
  + pendingFetches (run (Call_start :: script) (fresh o)) <= 1.
Proof.
  intros Hs. rewrite run_cons.
  assert (Hgen : forall w, single_flight w -> single_flight (run script w)).
  { clear o. induction script as [|i script IH]; intros w Hw; [exact Hw|].
    cbn [forallb] in Hs. apply andb_true_iff in Hs as [Hi Hs].
    rewrite run_cons. apply (IH Hs). now apply single_flight_step. }
  apply Hgen. unfold single_flight. cbn. lia.
Qed.

Lemma continue_round (e : EnvironmentEvent) (w : World) :
  awaiting_answer w ->
  awaiting_answer (run [Line "x"; EventReady e] w) /\
  self (run [Line "x"; EventReady e] w) = self w /\
  pendingFlushes (run [Line "x"; EventReady e] w) = pendingFlushes w /\
  trace (run [Line "x"; EventReady e] w)
  = trace w ++ round_effects (name (options (self w))) e.
Proof.
  unfold awaiting_answer.
  destruct w as [[o r p em sb] t q f fl ex]. cbn.
  intros (-> & -> & -> & ->). cbn.
  rewrite <- !app_assoc. now repeat split.
Qed.

Lemma continue_rounds (events : list EnvironmentEvent) (w : World) :
  awaiting_answer w ->
  awaiting_answer
    (run (flat_map (fun e => [Line "x"; EventReady e]) events) w) /\
  self (run (flat_map (fun e => [Line "x"; EventReady e]) events) w)
  = self w /\
  trace (run (flat_map (fun e => [Line "x"; EventReady e]) events) w)
  = trace w ++ flat_map (round_effects (name (options (self w)))) events.
Proof.
  revert w. induction events as [|e events IH]; intros w Hw.
  - cbn. now rewrite app_nil_r.
  - cbn [flat_map]. rewrite run_app.
    destruct (continue_round e w Hw) as (Hw1 & Hs1 & _ & Ht1).
    destruct (IH _ Hw1) as (Hw2 & Hs2 & Ht2).
    split; [exact Hw2|]. split; [congruence|].
    rewrite Ht2, Ht1, Hs1, <- app_assoc. reflexivity.
Qed.

Lemma quit_round (w : World) :
  awaiting_answer w ->
  exited (run [Line "q"; LogWriterStopped] w) = Some 0%Z /\
  trace (run [Line "q"; LogWriterStopped] w)
  = trace w ++ [Logged (lifecycle SIMULATOR_STOP
                          (stop_message (name (options (self w)))));
                FlushRequested; Closed; FlushCompleted; Exited 0].
Proof.
  unfold awaiting_answer.
  destruct w as [[o r p em sb] t q f fl ex]. cbn.
  intros (-> & -> & -> & ->). cbn.
  rewrite <- !app_assoc. now split.
Qed.

Lemma fetch_calls_rounds (n : string) (events : list EnvironmentEvent) :
  fetch_calls (flat_map (round_effects n) events) = length events.
Proof.
  induction events as [|e events IH]; [reflexivity|].
  cbn. now rewrite IH.
Qed.

Lemma count_iterations_rounds (n : string) (events : list EnvironmentEvent) :
  count_records SYSTEM_LOG (flat_map (round_effects n) events)
  = length events.
Proof.
  induction events as [|e events IH]; [reflexivity|].
  cbn [flat_map]. rewrite count_records_app, IH. reflexivity.
Qed.

(** X11.  A whole session: the controller is started, the operator continues
    once for each of the events, which arrive one by one, then quits, and
    the flush completes.  The effects are: the START record, the first
    iteration's record and question; per event the fetch, the closing of
    the question, the print, and the next iteration's record and question;
    then the STOP record, the flush, and the exit with status 0.  So there
    are as many fetches as events and one iteration record more. *)
Theorem operator_session (o : SimulatorOptions)
        (events : list EnvironmentEvent) :
  trace (run (Call_start :: continue_then_quit events) (fresh o))
  = [Logged (lifecycle SIMULATOR_START (start_message (name o)));
     Logged (lifecycle SYSTEM_LOG (iteration_message (name o)));
     Asked query]
    ++ flat_map (round_effects (name o)) events
    ++ [Logged (lifecycle SIMULATOR_STOP (stop_message (name o)));
        FlushRequested; Closed; FlushCompleted; Exited 0] /\
  exited (run (Call_start :: continue_then_quit events) (fresh o))
  = Some 0%Z /\
  fetch_calls (trace (run (Call_start :: continue_then_quit events)
                          (fresh o)))
  = length events /\
  count_records SYSTEM_LOG
    (trace (run (Call_start :: continue_then_quit events) (fresh o)))
  = S (length events).
Proof.
  rewrite run_cons. unfold continue_then_quit. rewrite run_app.
  assert (Hw : awaiting_answer (step Call_start (fresh o)))
    by (now repeat split).
  destruct (continue_rounds events _ Hw) as (Hw1 & Hs1 & Ht1).
  destruct (quit_round _ Hw1) as (Hx & Ht).
  assert (Htrace :
    trace (run [Line "q"; LogWriterStopped]
             (run (flat_map (fun e => [Line "x"; EventReady e]) events)
                  (step Call_start (fresh o))))
    = [Logged (lifecycle SIMULATOR_START (start_message (name o)));
       Logged (lifecycle SYSTEM_LOG (iteration_message (name o)));
       Asked query]
      ++ flat_map (round_effects (name o)) events
      ++ [Logged (lifecycle SIMULATOR_STOP (stop_message (name o)));
          FlushRequested; Closed; FlushCompleted; Exited 0]).
  { rewrite Ht, Ht1, Hs1, <- app_assoc. reflexivity. }
  split; [exact Htrace|]. split; [exact Hx|]. rewrite Htrace. split.
  - rewrite !fetch_calls_app, fetch_calls_rounds. cbn. lia.
  - rewrite !count_records_app, count_iterations_rounds. cbn. lia.
Qed.



(** X13.  [pause] followed by [resume] on a controller that was not paused
    changes no field and hands exactly the PAUSE and the RESUME record to
    the logger, in this order; no question is asked and nothing is
    fetched. *)
Theorem pause_then_resume (w : World) :
  isPaused (self w) = false ->
  exec resume (exec pause w)
  = emit (Logged (lifecycle SIMULATOR_RESUME
                    (resume_message (name (options (self w))))))
      (emit (Logged (lifecycle SIMULATOR_PAUSE
                       (pause_message (name (options (self w))))))
            w).
Proof.
  destruct w as [[o r p em sb] t q f fl ex]. cbn. intros ->. reflexivity.
Qed.


End Loop.

(* ------------------------------------------------------------------ *)
(** * The controller on examples *)

(** C1, as stated, fails: a second [start] on the running controller of
    [T1] does change the world; the logger then holds two START records and
    two questions are open. *)
Lemma start_twice_is_not_a_no_op :
  ~ start_is_idempotent /\
  isRunning (self started) = true /\
  count_records SIMULATOR_START (trace (step Call_start started)) = 2 /\
  openQuestions (step Call_start started) = 2.
Proof.
  split; [|now repeat split].
  intros Hc. specialize (Hc started eq_refl eq_refl).
  apply (f_equal openQuestions) in Hc. discriminate Hc.
Qed.

Lemma start_while_running_on_started :
  isRunning (self started) = true /\
  self (exec start started) = self started.
Proof.
  split; [reflexivity|].
  exact (proj1 (start_while_running started eq_refl)).
Defined.

Lemma stop_flushes_then_exits_on_fresh :
  exited (fresh T1) = None /\
  exited (step LogWriterStopped (step Call_stop (fresh T1))) = Some 0%Z.
Proof.
  split; [reflexivity|].
  exact (proj2 (proj1 (proj2 (stop_flushes_then_exits (fresh T1) eq_refl)))).
Defined.

Lemma describeEnvironment_on_failing_completion :
  fst (describeEnvironment llm_down (fresh T1)) = Normal EmptyString /\
  records (trace (snd (describeEnvironment llm_down (fresh T1))))
  = [mkRecord SYSTEM_LOG "Error describing the environment."
       (Failed (Error "service unavailable"))].
Proof.
  exact (proj1 (proj2 (proj2 (proj2
           (describeEnvironment_never_throws llm_down (fresh T1)))))
         grid_json (Error "service unavailable") eq_refl eq_refl).
Defined.

(** C5, as stated, fails on its last part: an iteration entered by hand on
    a controller that was never started, and the iteration entered when an
    event arrives after [stop] and before the flush has completed, both ask
    their question while [isRunning] is false. *)
Lemma iteration_begins_while_not_running :
  ~ no_iteration_once_stopped /\
  (isRunning (self (fresh T1)) = false /\
   questions_asked (trace (step Call_runIteration (fresh T1))) = 1) /\
  (isRunning (self stopped_while_fetching) = false /\
   exited stopped_while_fetching = None /\
   isRunning (self (step (EventReady 7) stopped_while_fetching)) = false /\
   questions_asked (trace (step (EventReady 7) stopped_while_fetching))
   = S (questions_asked (trace stopped_while_fetching))).
Proof.
  split; [|now repeat split].
  intros Hc. specialize (Hc T1 [] Call_runIteration eq_refl).
  discriminate Hc.
Qed.

Lemma isRunning_unchanged_by_pause_on_started :
  isRunning (self (exec pause started)) = isRunning (self started).
Proof.
  exact (proj1 (proj1 (proj2 (proj2 (proj2
           (isRunning_set_by_start_and_stop_only Call_pause started)))))).
Defined.

Lemma runIteration_paused_on_paused :
  isPaused (self paused) = true /\ step Call_runIteration paused = paused.
Proof.
  split; [reflexivity|].
  exact (proj2 (runIteration_paused paused eq_refl)).
Defined.

Lemma operator_continues_on_started :
  fetch_calls (trace (exec (on_answer "x") started))
  = fetch_calls (trace started) + 1.
Proof.
  exact (proj1 (proj2 (proj2 (proj2 (proj2 (proj2 (proj2
           (operator_answer_interpretation "x" started)))))))).
Defined.

Lemma initOptionsWithDefaults_unset_on_T1 :
  iterations T1 = None /\
  iterations (initOptionsWithDefaults T1) = Some (num_of_Z 1000).
Proof.
  split; [reflexivity|].
  exact (proj1 (proj2 (proj2 (proj2 (initOptionsWithDefaults_unset T1))))
           eq_refl).
Defined.

Lemma initOptionsWithDefaults_falsy_on_zero :
  temperature all_falsy = Some (num_of_Z 0) /\
  temperature (initOptionsWithDefaults all_falsy) = Some (num_ratio 1 2).
Proof.
  split; [reflexivity|].
  exact (proj1 (proj2 (proj2 (proj2 (proj2 (proj2 (proj2 (proj2 (proj2
           (initOptionsWithDefaults_falsy all_falsy)))))))))
           (num_of_Z 0) eq_refl eq_refl).
Defined.

Lemma cleanGPTJson_keeps_single_line_on_object :
  cleanGPTJson "```json{ }```" = "```json{ }```".
Proof. exact (cleanGPTJson_keeps_single_line "```json{ }```" eq_refl). Defined.

Lemma initOptionsWithDefaults_keeps_truthy_on_all_set :
  temperature (initOptionsWithDefaults all_set) = Some (num_of_Z 1).
Proof.
  exact (proj1 (proj2 (proj2 (proj2 (proj2 (proj2 (proj2 (proj2
           (initOptionsWithDefaults_keeps_truthy all_set))))))))
           (num_of_Z 1) eq_refl eq_refl).
Defined.

Lemma one_iteration_in_flight_on_T1 :
  openQuestions
    (run (Call_start :: [Line "x"; Call_pause; EventReady 3; Call_resume])
         (fresh T1))
  + pendingFetches
      (run (Call_start :: [Line "x"; Call_pause; EventReady 3; Call_resume])
           (fresh T1)) <= 1.
Proof.
  exact (one_iteration_in_flight T1
           [Line "x"; Call_pause; EventReady 3; Call_resume] eq_refl).
Defined.


Lemma pause_then_resume_on_started :
  self (exec resume (exec pause started)) = self started.
Proof.
  exact (f_equal self (pause_then_resume started eq_refl)).
Defined.

